(** * Airbnb price predictor (app.py): form state, feature assembly, ranking

    A shallow embedding of the Streamlit script [app.py].  The script is
    re-run from top to bottom on every user interaction; what survives
    between two runs is [st.session_state], a dictionary keyed by strings.
    Python floats are IEEE binary64 numbers and are modelled by Rocq's
    primitive floats; Python ints by [Z]; [st.session_state] by a [gmap];
    the dict literal [city_coords], whose key order the script relies on,
    by an association list. *)

From Stdlib Require Import Floats Uint63 ZArith List Bool Lia Sorted.
From stdpp Require Import gmap strings list.

Set Warnings "-inexact-float".

Local Open Scope string_scope.
Local Open Scope Z_scope.

(** ** Python values and exceptions *)

Inductive value : Type :=
  | VStr (s : string)
  | VFloat (x : float)
  | VInt (n : Z).

Inductive exn : Type :=
  | KeyError (k : string)
  | IndexError
  | TypeError
  | ValueError
  | Raised (msg : string).

Inductive result (A : Type) : Type :=
  | Ok (a : A)
  | Err (e : exn).
Arguments Ok {A} a.
Arguments Err {A} e.

(** A Python dict whose insertion order matters: keys in order, first
    binding of a key found by [dict_get]. *)
Fixpoint dict_get {V : Type} (d : list (string * V)) (k : string) : option V :=
  match d with
  | [] => None
  | (k', v) :: d' => if String.eqb k' k then Some v else dict_get d' k
  end.

(** [d[k]]: raises [KeyError] on a missing key. *)
Definition dict_getitem {V : Type} (d : list (string * V)) (k : string) : result V :=
  match dict_get d k with
  | Some v => Ok v
  | None => Err (KeyError k)
  end.

Definition dict_keys {V : Type} (d : list (string * V)) : list string := map fst d.

(** ** The static reference table (app.py, lines 9-25) *)

Definition city_coords : list (string * (float * float)) :=
  [ ("Paris", (48.8566, 2.3522)%float);
    ("Rome", (41.9028, 12.4964)%float);
    ("Amsterdam", (52.3676, 4.9041)%float);
    ("Berlin", (52.5200, 13.4050)%float);
    ("Prague", (50.0755, 14.4378)%float);
    ("Barcelona", (41.3851, 2.1734)%float);
    ("Budapest", (47.4979, 19.0402)%float);
    ("Vienna", (48.2082, 16.3738)%float);
    ("Athens", (37.9838, 23.7275)%float);
    ("Istanbul", (41.0082, 28.9784)%float);
    ("Dublin", (53.3498, -6.2603)%float);
    ("Oslo", (59.9139, 10.7522)%float);
    ("Stockholm", (59.3293, 18.0686)%float);
    ("Copenhagen", (55.6761, 12.5683)%float);
    ("Brussels", (50.8503, 4.3517)%float) ].

(** ** The reactive default rule (app.py, lines 48-57) *)

(** ["k" not in st.session_state] *)
Definition not_in (k : string) (ss : gmap string value) : bool :=
  match ss !! k with
  | None => true
  | Some _ => false
  end.

(** [st.session_state.get(k, None) != city], for a string [city]: [None]
    and every value that is not a string differ from it. *)
Definition get_ne_str (ss : gmap string value) (k : string) (city : string) : bool :=
  match ss !! k with
  | Some (VStr s) => negb (String.eqb s city)
  | _ => true
  end.

Definition auto_update (city : string) (ss : gmap string value)
  : result (gmap string value) :=
  if not_in "latitude_input" ss
     || not_in "longitude_input" ss
     || get_ne_str ss "last_city" city
  then
    match dict_getitem city_coords city with
    | Err e => Err e
    | Ok (default_lat, default_lon) =>
        Ok (<["last_city" := VStr city]>
              (<["longitude_input" := VFloat default_lon]>
                 (<["latitude_input" := VFloat default_lat]> ss)))
    end
  else Ok ss.

(** ** State and exceptions of one run of the script

    A run threads a state through its statements and stops at the first
    exception; what was written to the state before the exception stays
    written. *)

Definition M (S A : Type) : Type := S -> result A * S.

Definition ret {S A : Type} (a : A) : M S A := fun s => (Ok a, s).

Definition bind {S A B : Type} (m : M S A) (k : A -> M S B) : M S B :=
  fun s =>
    match m s with
    | (Ok a, s') => k a s'
    | (Err e, s') => (Err e, s')
    end.

(** A computation that touches no state. *)
Definition lift {S A : Type} (r : result A) : M S A := fun s => (r, s).

Notation "'do' x <- c1 ; c2" := (bind c1 (fun x => c2))
  (at level 10, x name, c1 at level 100, c2 at level 200).
Notation "c1 ;; c2" := (bind c1 (fun _ => c2))
  (at level 100, c2 at level 200, right associativity).

(** ** Streamlit widgets

    A widget created with [key=k] keeps its value in [st.session_state[k]]:
    the user's interaction writes the new value there before the script is
    re-run, and the widget call returns it.  A widget that has no value yet
    takes its default and registers it.

    The model describes a widget on what the widget itself stores under
    its key: an option of the selectbox, an int within the bounds of the
    slider or of the bounded [number_input], a finite float ([valid],
    below).  The script writes to no widget key other than the two
    coordinate keys, and there it writes coordinates of the table.  What
    Streamlit does with any other value found under a widget's key (the
    slider rejects an int out of its range, the selectbox and the bounded
    [number_input] go back to their default) is outside the model: here a
    stored value of the widget's type is returned as it is, and a value of
    another type stops the run with [TypeError]. *)

(** [st.sidebar.selectbox(label, options, key=key)]: the first option
    until the user picks one.  Both option lists of the script are not
    empty. *)
Definition selectbox (options : list string) (key : string)
  : M (gmap string value) string :=
  fun ss =>
    match ss !! key with
    | Some (VStr s) => (Ok s, ss)
    | Some _ => (Err TypeError, ss)
    | None =>
        match options with
        | o :: _ => (Ok o, <[key := VStr o]> ss)
        | [] => (Err IndexError, ss)
        end
    end.

(** [st.sidebar.slider(label, lo, hi, default, key=key)], and the
    [number_input] of lines 104-108 with the same four numbers.  The bounds
    limit what the user can enter, so a value the widget has stored lies
    within them ([valid]); the model does not compare the stored value with
    them. *)
Definition int_input (lo hi default : Z) (key : string)
  : M (gmap string value) Z :=
  fun ss =>
    match ss !! key with
    | Some (VInt n) => (Ok n, ss)
    | Some _ => (Err TypeError, ss)
    | None => (Ok default, <[key := VInt default]> ss)
    end.

(** [st.sidebar.number_input(label, value=default, key=key)] over floats. *)
Definition float_input (default : float) (key : string)
  : M (gmap string value) float :=
  fun ss =>
    match ss !! key with
    | Some (VFloat x) => (Ok x, ss)
    | Some _ => (Err TypeError, ss)
    | None => (Ok default, <[key := VFloat default]> ss)
    end.

(** [st.session_state[k]] read as the [value=] argument of a float
    [number_input]. *)
Definition session_float (k : string) : M (gmap string value) float :=
  fun ss =>
    match ss !! k with
    | Some (VFloat x) => (Ok x, ss)
    | Some _ => (Err TypeError, ss)
    | None => (Err (KeyError k), ss)
    end.

(** [st.sidebar.number_input(label, value=st.session_state[k],
    format="%.6f", key=k)], the form of both coordinate fields. *)
Definition coord_input (k : string) : M (gmap string value) float :=
  do value <- session_float k;
  float_input value k.

(** ** The sidebar (app.py, lines 41-108) *)

(** The values the widgets return in one run. *)
Record FormState : Type := {
  city : string;
  latitude : float;
  longitude : float;
  room_type : string;
  minimum_nights : Z;
  number_of_reviews : Z;
  reviews_per_month : float;
  calculated_host_listings_count : Z;
  availability_365 : Z;
  number_of_reviews_ltm : Z
}.

Definition room_types : list string :=
  ["Entire home/apt"; "Private room"; "Shared room"].

(** Lines 49-57 as a statement of the run. *)
Definition update_coords (city : string) : M (gmap string value) unit :=
  fun ss =>
    match auto_update city ss with
    | Ok ss' => (Ok tt, ss')
    | Err e => (Err e, ss)
    end.

Definition sidebar : M (gmap string value) FormState :=
  do city <- selectbox (dict_keys city_coords) "city_input";
  update_coords city;;
  do latitude <- coord_input "latitude_input";
  do longitude <- coord_input "longitude_input";
  do room_type <- selectbox room_types "room_type_input";
  do minimum_nights <- int_input 1 30 1 "min_nights_input";
  do number_of_reviews <- int_input 0 500 50 "num_reviews_input";
  do reviews_per_month <- float_input 0.0%float "reviews_per_month_input";
  do calculated_host_listings_count <- int_input 1 10 1 "host_listings_count_input";
  do availability_365 <- int_input 0 365 200 "availability_input";
  do number_of_reviews_ltm <- int_input 0 500 0 "reviews_ltm_input";
  ret {| city := city;
         latitude := latitude;
         longitude := longitude;
         room_type := room_type;
         minimum_nights := minimum_nights;
         number_of_reviews := number_of_reviews;
         reviews_per_month := reviews_per_month;
         calculated_host_listings_count := calculated_host_listings_count;
         availability_365 := availability_365;
         number_of_reviews_ltm := number_of_reviews_ltm |}.

(** The city the selectbox of line 42 returns in a run started in [ss]. *)
Definition selected_city (ss : gmap string value) : result string :=
  fst (selectbox (dict_keys city_coords) "city_input" ss).

(** ** User interactions

    Each interaction writes the widget's new value under the widget's key
    and triggers a run of the script. *)

Inductive event : Type :=
  | Rerun
  | SelectCity (c : string)
  | EditLatitude (x : float)
  | EditLongitude (x : float).

Definition apply_event (e : event) (ss : gmap string value) : gmap string value :=
  match e with
  | Rerun => ss
  | SelectCity c => <["city_input" := VStr c]> ss
  | EditLatitude x => <["latitude_input" := VFloat x]> ss
  | EditLongitude x => <["longitude_input" := VFloat x]> ss
  end.

(** The session state after the run that the interaction [e] triggers. *)
Definition render (e : event) (ss : gmap string value) : gmap string value :=
  snd (sidebar (apply_event e ss)).

Definition renders (es : list event) (ss : gmap string value) : gmap string value :=
  foldl (fun s e => render e s) ss es.

(** An interaction the page offers: the city selectbox lists the keys of
    [city_coords] and nothing else. *)
Definition offered (e : event) : Prop :=
  match e with
  | SelectCity c => c ∈ dict_keys city_coords
  | _ => True
  end.

(** The state lines 49-57 establish for the selected city [c]. *)
Definition settled (c : string) (ss : gmap string value) : Prop :=
  ss !! "last_city" = Some (VStr c)
  /\ is_Some (ss !! "latitude_input")
  /\ is_Some (ss !! "longitude_input").

(** The widgets' entries hold what the widgets put there: a string for
    a selectbox, a float or an int for a numeric field, or nothing yet. *)
Definition holds_str (o : option value) : Prop :=
  match o with
  | None | Some (VStr _) => True
  | Some _ => False
  end.

Definition holds_float (o : option value) : Prop :=
  match o with
  | None | Some (VFloat _) => True
  | Some _ => False
  end.

Definition holds_int (o : option value) : Prop :=
  match o with
  | None | Some (VInt _) => True
  | Some _ => False
  end.

Definition well_typed (ss : gmap string value) : Prop :=
  holds_str (ss !! "city_input")
  /\ holds_float (ss !! "latitude_input")
  /\ holds_float (ss !! "longitude_input")
  /\ holds_str (ss !! "room_type_input")
  /\ holds_int (ss !! "min_nights_input")
  /\ holds_int (ss !! "num_reviews_input")
  /\ holds_float (ss !! "reviews_per_month_input")
  /\ holds_int (ss !! "host_listings_count_input")
  /\ holds_int (ss !! "availability_input")
  /\ holds_int (ss !! "reviews_ltm_input").

(** ** Encoding maps (app.py, lines 110-112) *)

Definition rbind {A B : Type} (r : result A) (k : A -> result B) : result B :=
  match r with
  | Ok a => k a
  | Err e => Err e
  end.

Notation "'try' x <- c1 ; c2" := (rbind c1 (fun x => c2))
  (at level 10, x name, c1 at level 100, c2 at level 200).

(** [d[k] = v]: a key already present keeps its place and takes the new
    value, a new key goes last. *)
Fixpoint dict_set {V : Type} (d : list (string * V)) (k : string) (v : V)
  : list (string * V) :=
  match d with
  | [] => [(k, v)]
  | (k', v') :: d' =>
      if String.eqb k' k then (k', v) :: d' else (k', v') :: dict_set d' k v
  end.

Definition enumerate {A : Type} (l : list A) : list (nat * A) := imap pair l.

Definition room_type_map : list (string * Z) :=
  [("Entire home/apt", 0); ("Private room", 1); ("Shared room", 2)].

(** [{c: i for i, c in enumerate(list(city_coords.keys()))}] *)
Definition city_map : list (string * Z) :=
  foldl (fun d ic => dict_set d (snd ic) (Z.of_nat (fst ic))) []
        (enumerate (dict_keys city_coords)).

(** ** The feature row (app.py, lines 114-134) *)

Record DataFrame : Type := {
  columns : list string;
  rows : list (list value)
}.

(** [pd.DataFrame(records, columns=cols)]: one row per dict, one cell per
    column label, NaN where the dict has no such key. *)
Definition DataFrame_of_records (records : list (list (string * value)))
  (cols : list string) : DataFrame :=
  {| columns := cols;
     rows := map (fun d => map (fun c => default (VFloat nan) (dict_get d c)) cols)
                 records |}.

(** [pd.DataFrame(array, columns=cols)] for a two-dimensional array:
    [ValueError] unless every row has as many cells as there are labels. *)
Definition DataFrame_of_array (a : list (list float)) (cols : list string)
  : result DataFrame :=
  if forallb (fun r => Nat.eqb (length r) (length cols)) a
  then Ok {| columns := cols; rows := map (map VFloat) a |}
  else Err ValueError.

Definition input_dict (fs : FormState) : result (list (string * value)) :=
  try room_type_code <- dict_getitem room_type_map (room_type fs);
  try city_code <- dict_getitem city_map (city fs);
  Ok [ ("latitude", VFloat (latitude fs));
       ("longitude", VFloat (longitude fs));
       ("room_type", VInt room_type_code);
       ("minimum_nights", VInt (minimum_nights fs));
       ("number_of_reviews", VInt (number_of_reviews fs));
       ("reviews_per_month", VFloat (reviews_per_month fs));
       ("calculated_host_listings_count", VInt (calculated_host_listings_count fs));
       ("availability_365", VInt (availability_365 fs));
       ("number_of_reviews_ltm", VInt (number_of_reviews_ltm fs));
       ("city", VInt city_code) ].

Definition columns_order : list string :=
  [ "latitude"; "longitude"; "room_type"; "minimum_nights"; "number_of_reviews";
    "reviews_per_month"; "calculated_host_listings_count"; "availability_365";
    "number_of_reviews_ltm"; "city" ].

Definition input_df (fs : FormState) : result DataFrame :=
  try d <- input_dict fs;
  Ok (DataFrame_of_records [d] columns_order).

(** ** Ranking by importance (app.py, line 149)

    [np.argsort] is numpy's and is called with its default kind, which is
    not a stable sort.  Like the other library calls it is taken as given,
    and what numpy promises of its result is stated on its own: the result
    lists every position of the array once, and along it the values do not
    decrease.  The order among equal values is not promised. *)

Definition sorts {W : Type} (less : W -> W -> bool) (v : list W)
  (l : list nat) : Prop :=
  l ≡ₚ seq 0 (length v)
  /\ forall a b i j wi wj,
       l !! a = Some i -> l !! b = Some j -> (a < b)%nat ->
       v !! i = Some wi -> v !! j = Some wj ->
       less wj wi = false.

(** [np.argsort(importances)[::-1][:5]] *)
Definition top_idx {W : Type} (argsort : list W -> list nat)
  (importances : list W) : list nat :=
  take 5 (rev (argsort importances)).

(** [heavier_at less v i j]: the weight at position [j] is greater than
    the weight at position [i]. *)
Definition heavier_at {W : Type} (less : W -> W -> bool) (v : list W)
  (i j : nat) : bool :=
  match v !! i, v !! j with
  | Some wi, Some wj => less wi wj
  | _, _ => false
  end.

(** The positions of [v] that are heavier, and those that are lighter,
    than position [i]. *)
Definition heavier {W : Type} (less : W -> W -> bool) (v : list W)
  (i : nat) : list nat :=
  filter (fun j => heavier_at less v i j = true) (seq 0 (length v)).

Definition lighter {W : Type} (less : W -> W -> bool) (v : list W)
  (i : nat) : list nat :=
  filter (fun j => heavier_at less v j i = true) (seq 0 (length v)).

(** The order the code's result has: the weight at [i] is not less than
    the weight at [j].  Nothing is said of two equal weights. *)
Definition weight_before {W : Type} (less : W -> W -> bool) (v : list W)
  (i j : nat) : Prop :=
  exists wi wj, v !! i = Some wi /\ v !! j = Some wj /\ less wi wj = false.

(** The order the specification words, "ties broken by original feature
    order": the greater weight first, and of two equal weights the earlier
    position first. *)
Definition spec_before {W : Type} (less : W -> W -> bool) (v : list W)
  (i j : nat) : Prop :=
  exists wi wj, v !! i = Some wi /\ v !! j = Some wj
    /\ (less wj wi = true
        \/ (less wi wj = false /\ less wj wi = false /\ (i < j)%nat)).

(** [l] lists, in the order [before], positions that come before every
    position below [n] left out of [l]. *)
Definition ranked (before : nat -> nat -> Prop) (n : nat) (l : list nat) : Prop :=
  (forall a b i j, l !! a = Some i -> l !! b = Some j -> (a < b)%nat -> before i j)
  /\ (forall i k, i ∈ l -> (k < n)%nat -> k ∉ l -> before i k).

(** numpy's order on floats: NaN sorts last. *)
Definition float_less (a b : float) : bool :=
  (a <? b)%float || (negb (b =? b)%float && (a =? a)%float).

(** [a[idx]] for a list of positions: [IndexError] past the end. *)
Fixpoint fancy_index {A : Type} (a : list A) (idx : list nat) : result (list A) :=
  match idx with
  | [] => Ok []
  | i :: idx' =>
      match a !! i with
      | None => Err IndexError
      | Some x => try r <- fancy_index a idx'; Ok (x :: r)
      end
  end.

(** ** What a run shows on the page

    The elements of the main page, in the order the script creates them
    (the widgets of the sidebar are not among them).  [BarChart] holds the
    frame handed to [st.bar_chart], row by row: label and weight. *)

Inductive display (W : Type) : Type :=
  | Title (s : string)
  | Markdown (s : string)
  | Subheader (s : string)
  | WritePrice (predicted_price : float)
  | Checkbox (label : string) (checked : bool)
  | BarChart (fi_df : list (string * W))
  | FoliumMap (lat lon : float).
Arguments Title {W} s.
Arguments Markdown {W} s.
Arguments Subheader {W} s.
Arguments WritePrice {W} predicted_price.
Arguments Checkbox {W} label checked.
Arguments BarChart {W} fi_df.
Arguments FoliumMap {W} lat lon.

Record world (W : Type) : Type := {
  session_state : gmap string value;
  page : list (display W)
}.
Arguments session_state {W} w.
Arguments page {W} w.

Definition in_session {W A : Type} (m : M (gmap string value) A) : M (world W) A :=
  fun w =>
    match m (session_state w) with
    | (r, ss') => (r, {| session_state := ss'; page := page w |})
    end.

Definition show {W : Type} (d : display W) : M (world W) unit :=
  fun w => (Ok tt, {| session_state := session_state w; page := page w ++ [d] |}).

(** [folium.Map(location=[latitude, longitude], zoom_start=13)]: folium
    refuses a location that holds a NaN. *)
Definition folium_Map (latitude longitude : float) : result (float * float) :=
  if is_nan latitude || is_nan longitude then Err ValueError
  else Ok (latitude, longitude).

(** ** The whole script

    The pickled artifacts and the objects they hold belong to joblib,
    scikit-learn and LightGBM: what loading a path gives, and what
    [transform], [predict], [feature_importances_] and [np.argsort] return
    or raise, are taken as given.  The entry that the [st_folium] component
    keeps for itself in the session state, which no line of the script
    reads, is not part of the model. *)

Section Script.
Context {Artifact W : Type}.
Variable joblib_load : string -> result Artifact.
Variable transform : Artifact -> DataFrame -> result (list (list float)).
Variable predict : Artifact -> DataFrame -> result (list float).
Variable feature_importances_ : Artifact -> result (list W).
Variable argsort : list W -> list nat.

(** Lines 28-32. *)
Definition load_model : result (Artifact * Artifact) :=
  try model <- joblib_load "lightgbm_airbnb_model.pkl";
  try scaler <- joblib_load "feature_scaler.pkl";
  Ok (model, scaler).

(** Lines 137-140. *)
Definition predicted_price (model scaler : Artifact) (df : DataFrame)
  : result float :=
  try X_scaled <- transform scaler df;
  try X_scaled_df <- DataFrame_of_array X_scaled columns_order;
  try prediction <- predict model X_scaled_df;
  match prediction !! 0%nat with
  | Some price => Ok price
  | None => Err IndexError
  end.

(** Lines 147-153. *)
Definition fi_df (model : Artifact) (df : DataFrame) : result (list (string * W)) :=
  try importances <- feature_importances_ model;
  let feat_names := columns df in
  let top := top_idx argsort importances in
  try names <- fancy_index feat_names top;
  try weights <- fancy_index importances top;
  Ok (combine names weights).

(** [checked] is what [st.checkbox("Show top 5 feature importances")]
    returns in this run.  A run that completes gives back what its
    variables [input_df] and [predicted_price] hold. *)
Definition script (checked : bool) : M (world W) (DataFrame * float) :=
  do loaded <- lift load_model;
  show (Title "Airbnb Price Predictor");;
  show (Markdown "Enter listing details below to predict the nightly price.");;
  do fs <- in_session sidebar;
  do df <- lift (input_df fs);
  do price <- lift (predicted_price (fst loaded) (snd loaded) df);
  show (Subheader "Predicted Nightly Price");;
  show (WritePrice price);;
  show (Checkbox "Show top 5 feature importances" checked);;
  (if checked
   then do chart <- lift (fi_df (fst loaded) df); show (BarChart chart)
   else ret tt);;
  show (Subheader "Selected Listing on Map");;
  do m <- lift (folium_Map (latitude fs) (longitude fs));
  show (FoliumMap (fst m) (snd m));;
  ret (df, price).

(** Every run draws the page anew. *)
Definition run (checked : bool) (ss : gmap string value)
  : result (DataFrame * float) * world W :=
  script checked {| session_state := ss; page := [] |}.

(** The ways the artifacts can fail a run whose feature row is [df]:
    a pickle that does not load, a scaler or a model that rejects its
    input, a scaled array that does not have one cell per column, a
    prediction without a first entry. *)
Inductive artifact_failure (df : DataFrame) : exn -> Prop :=
  | model_not_loaded e :
      joblib_load "lightgbm_airbnb_model.pkl" = Err e ->
      artifact_failure df e
  | scaler_not_loaded model e :
      joblib_load "lightgbm_airbnb_model.pkl" = Ok model ->
      joblib_load "feature_scaler.pkl" = Err e ->
      artifact_failure df e
  | scaler_rejects model scaler e :
      load_model = Ok (model, scaler) ->
      transform scaler df = Err e ->
      artifact_failure df e
  | scaled_shape model scaler X_scaled e :
      load_model = Ok (model, scaler) ->
      transform scaler df = Ok X_scaled ->
      DataFrame_of_array X_scaled columns_order = Err e ->
      artifact_failure df e
  | model_rejects model scaler X_scaled X_scaled_df e :
      load_model = Ok (model, scaler) ->
      transform scaler df = Ok X_scaled ->
      DataFrame_of_array X_scaled columns_order = Ok X_scaled_df ->
      predict model X_scaled_df = Err e ->
      artifact_failure df e
  | no_prediction model scaler X_scaled X_scaled_df :
      load_model = Ok (model, scaler) ->
      transform scaler df = Ok X_scaled ->
      DataFrame_of_array X_scaled columns_order = Ok X_scaled_df ->
      predict model X_scaled_df = Ok [] ->
      artifact_failure df IndexError.
End Script.

(** ** Fitted estimators that check the width only

    A fitted estimator remembers the column labels it was fitted on.  The
    script labels the scaled array with its own [columns_order] (line 138)
    and LightGBM's [predict] does not compare labels unless asked to
    ([validate_features] is off by default), so what an artifact fitted on
    the same columns in another order can notice is the width of its input
    alone.  These stand-ins do just that: the scaler leaves every cell as it
    is, the model predicts the first cell of each row. *)

Record estimator : Type := {
  feature_names_in_ : list string
}.

Definition float_of_Z (n : Z) : float :=
  if n <? 0 then PrimFloat.opp (PrimFloat.of_uint63 (Uint63.of_Z (- n)))
  else PrimFloat.of_uint63 (Uint63.of_Z n).

Definition as_float (v : value) : float :=
  match v with
  | VFloat x => x
  | VInt n => float_of_Z n
  | VStr _ => nan
  end.

Definition same_width (e : estimator) (df : DataFrame) : bool :=
  forallb (fun r => Nat.eqb (length r) (length (feature_names_in_ e))) (rows df).

Definition width_only_transform (scaler : estimator) (df : DataFrame)
  : result (list (list float)) :=
  if same_width scaler df then Ok (map (map as_float) (rows df))
  else Err ValueError.

Definition width_only_predict (model : estimator) (df : DataFrame)
  : result (list float) :=
  if same_width model df
  then Ok (map (fun r => as_float (default (VFloat nan) (r !! 0%nat))) (rows df))
  else Err ValueError.

(** ** Reading the session state

    What a widget returns for the entry under its key: the stored value, or
    the widget's default when nothing is stored. *)

Definition stored_str (o : option value) (d : string) : string :=
  match o with
  | Some (VStr s) => s
  | _ => d
  end.

Definition stored_int (o : option value) (d : Z) : Z :=
  match o with
  | Some (VInt n) => n
  | _ => d
  end.

Definition stored_float (o : option value) (d : float) : float :=
  match o with
  | Some (VFloat x) => x
  | _ => d
  end.

(** The keys of the ten sidebar widgets, in the order of the script. *)
Definition widget_keys : list string :=
  [ "city_input"; "latitude_input"; "longitude_input"; "room_type_input";
    "min_nights_input"; "num_reviews_input"; "reviews_per_month_input";
    "host_listings_count_input"; "availability_input"; "reviews_ltm_input" ].

(** The session state shows the form state [fs]: every widget's key holds
    the value the widget returned, and the remembered city is the selected
    one. *)
Definition shows (fs : FormState) (ss : gmap string value) : Prop :=
  ss !! "city_input" = Some (VStr (city fs))
  /\ ss !! "last_city" = Some (VStr (city fs))
  /\ ss !! "latitude_input" = Some (VFloat (latitude fs))
  /\ ss !! "longitude_input" = Some (VFloat (longitude fs))
  /\ ss !! "room_type_input" = Some (VStr (room_type fs))
  /\ ss !! "min_nights_input" = Some (VInt (minimum_nights fs))
  /\ ss !! "num_reviews_input" = Some (VInt (number_of_reviews fs))
  /\ ss !! "reviews_per_month_input" = Some (VFloat (reviews_per_month fs))
  /\ ss !! "host_listings_count_input"
       = Some (VInt (calculated_host_listings_count fs))
  /\ ss !! "availability_input" = Some (VInt (availability_365 fs))
  /\ ss !! "reviews_ltm_input" = Some (VInt (number_of_reviews_ltm fs)).

(** A session state the widgets themselves can have produced: under each
    widget's key there is nothing yet, or a value the widget offers (an
    option of the selectbox, an int within the bounds of the slider or of
    the [number_input], a finite float).  On such states a widget call
    returns the stored value; what Streamlit does with any other stored
    value is not part of the model. *)
Definition stored_option (options : list string) (o : option value) : Prop :=
  match o with
  | None => True
  | Some (VStr s) => s ∈ options
  | Some _ => False
  end.

Definition stored_within (lo hi : Z) (o : option value) : Prop :=
  match o with
  | None => True
  | Some (VInt n) => lo <= n <= hi
  | Some _ => False
  end.

Definition stored_finite (o : option value) : Prop :=
  match o with
  | None => True
  | Some (VFloat x) => is_finite x = true
  | Some _ => False
  end.

Definition valid (ss : gmap string value) : Prop :=
  stored_option (dict_keys city_coords) (ss !! "city_input")
  /\ stored_finite (ss !! "latitude_input")
  /\ stored_finite (ss !! "longitude_input")
  /\ stored_option room_types (ss !! "room_type_input")
  /\ stored_within 1 30 (ss !! "min_nights_input")
  /\ stored_within 0 500 (ss !! "num_reviews_input")
  /\ stored_finite (ss !! "reviews_per_month_input")
  /\ stored_within 1 10 (ss !! "host_listings_count_input")
  /\ stored_within 0 365 (ss !! "availability_input")
  /\ stored_within 0 500 (ss !! "reviews_ltm_input").

(** An interaction the user can make: a city of the list, a finite
    number typed into a coordinate field. *)
Definition enterable (e : event) : Prop :=
  match e with
  | Rerun => True
  | SelectCity c => c ∈ dict_keys city_coords
  | EditLatitude x => is_finite x = true
  | EditLongitude x => is_finite x = true
  end.

(** An interaction that edits no coordinate. *)
Definition unedited (e : event) : Prop :=
  match e with
  | EditLatitude _ | EditLongitude _ => False
  | _ => True
  end.

(** The coordinates are the stored ones of the selected city, which is
    also the remembered one. *)
Definition at_defaults (ss : gmap string value) : Prop :=
  exists c lat lon,
    selected_city ss = Ok c
    /\ dict_get city_coords c = Some (lat, lon)
    /\ ss !! "last_city" = Some (VStr c)
    /\ ss !! "latitude_input" = Some (VFloat lat)
    /\ ss !! "longitude_input" = Some (VFloat lon).

(** * Properties *)

(** ** The reactive default rule *)

Lemma get_ne_str_true (ss : gmap string value) (k c : string) :
  get_ne_str ss k c = true <-> ss !! k ≠ Some (VStr c).
Proof.
  unfold get_ne_str.
  destruct (ss !! k) as [[s | x | n] |] eqn:E; try (split; [congruence | reflexivity]).
  rewrite negb_true_iff. split.
  - intros Hs [= ->]. rewrite String.eqb_refl in Hs. discriminate.
  - intros Hne. apply String.eqb_neq. congruence.
Qed.

Lemma get_ne_str_false (ss : gmap string value) (k c : string) :
  get_ne_str ss k c = false <-> ss !! k = Some (VStr c).
Proof.
  rewrite <- not_true_iff_false, get_ne_str_true.
  destruct (ss !! k) as [[s | x | n] |]; try (split; [intros H; destruct H|]; congruence).
  destruct (String.eqb_spec s c) as [-> | Hne]; split; try congruence.
  intros H. destruct H. congruence.
Qed.

Lemma not_in_true (ss : gmap string value) (k : string) :
  not_in k ss = true <-> ss !! k = None.
Proof. unfold not_in. destruct (ss !! k); split; congruence. Qed.

Lemma not_in_false (ss : gmap string value) (k : string) :
  not_in k ss = false <-> is_Some (ss !! k).
Proof.
  unfold not_in. destruct (ss !! k); split; try congruence; eauto.
  intros [v Hv]. discriminate.
Qed.

(** The guard of the block holds exactly when a coordinate is missing or
    the remembered city is not the selected one. *)
Lemma guard_true (c : string) (ss : gmap string value) :
  not_in "latitude_input" ss || not_in "longitude_input" ss
    || get_ne_str ss "last_city" c = true
  <-> ss !! "latitude_input" = None \/ ss !! "longitude_input" = None
      \/ ss !! "last_city" ≠ Some (VStr c).
Proof.
  rewrite !orb_true_iff, !not_in_true, get_ne_str_true. tauto.
Qed.

Lemma guard_false (c : string) (ss : gmap string value) :
  not_in "latitude_input" ss || not_in "longitude_input" ss
    || get_ne_str ss "last_city" c = false
  <-> is_Some (ss !! "latitude_input") /\ is_Some (ss !! "longitude_input")
      /\ ss !! "last_city" = Some (VStr c).
Proof.
  rewrite !orb_false_iff, !not_in_false, get_ne_str_false. tauto.
Qed.

Lemma auto_update_reset (c : string) (lat lon : float) (ss : gmap string value) :
  dict_get city_coords c = Some (lat, lon) ->
  ss !! "latitude_input" = None \/ ss !! "longitude_input" = None
    \/ ss !! "last_city" ≠ Some (VStr c) ->
  auto_update c ss =
    Ok (<["last_city" := VStr c]>
          (<["longitude_input" := VFloat lon]>
             (<["latitude_input" := VFloat lat]> ss))).
Proof.
  intros Hc Hg. apply guard_true in Hg.
  unfold auto_update, dict_getitem. rewrite Hg, Hc. reflexivity.
Qed.

Lemma auto_update_keep (c : string) (ss : gmap string value) :
  is_Some (ss !! "latitude_input") -> is_Some (ss !! "longitude_input") ->
  ss !! "last_city" = Some (VStr c) ->
  auto_update c ss = Ok ss.
Proof.
  intros Hlat Hlon Hc.
  assert (Hg := proj2 (guard_false c ss) (conj Hlat (conj Hlon Hc))).
  unfold auto_update. rewrite Hg. reflexivity.
Qed.

(** ** What a run of the sidebar does to the session state *)

Lemma bind_lookup {A B : Type} (m : M (gmap string value) A)
  (f : A -> M (gmap string value) B) (k : string) :
  (forall s, snd (m s) !! k = s !! k) ->
  (forall a s, snd (f a s) !! k = s !! k) ->
  forall s, snd (bind m f s) !! k = s !! k.
Proof.
  intros Hm Hf s. unfold bind. specialize (Hm s).
  destruct (m s) as [[a | e] s']; simpl in *.
  - rewrite Hf. exact Hm.
  - exact Hm.
Qed.

Lemma ret_lookup {A : Type} (a : A) (k : string) (s : gmap string value) :
  snd (ret a s) !! k = s !! k.
Proof. reflexivity. Qed.

Lemma selectbox_lookup_ne (options : list string) (key k : string)
  (s : gmap string value) :
  key ≠ k -> snd (selectbox options key s) !! k = s !! k.
Proof.
  intros Hne. unfold selectbox.
  destruct (s !! key) as [[c | x | n] |]; try reflexivity.
  destruct options; simpl; [reflexivity |]. by rewrite lookup_insert_ne.
Qed.

Lemma int_input_lookup_ne (lo hi d : Z) (key k : string) (s : gmap string value) :
  key ≠ k -> snd (int_input lo hi d key s) !! k = s !! k.
Proof.
  intros Hne. unfold int_input.
  destruct (s !! key) as [[c | x | n] |]; simpl; try reflexivity.
  by rewrite lookup_insert_ne.
Qed.

Lemma float_input_lookup_ne (d : float) (key k : string) (s : gmap string value) :
  key ≠ k -> snd (float_input d key s) !! k = s !! k.
Proof.
  intros Hne. unfold float_input.
  destruct (s !! key) as [[c | x | n] |]; simpl; try reflexivity.
  by rewrite lookup_insert_ne.
Qed.

(** A coordinate field shows what the session state holds and changes
    nothing. *)
Lemma coord_input_state (k : string) (s : gmap string value) :
  snd (coord_input k s) = s.
Proof.
  unfold coord_input, bind, session_float, float_input.
  destruct (s !! k) as [[c | x | n] |] eqn:E; simpl; try reflexivity.
  rewrite E. reflexivity.
Qed.

Lemma coord_input_value (k : string) (x : float) (s : gmap string value) :
  s !! k = Some (VFloat x) -> coord_input k s = (Ok x, s).
Proof.
  intros E. unfold coord_input, bind, session_float, float_input.
  rewrite E. simpl. rewrite E. reflexivity.
Qed.

Lemma update_coords_lookup_ne (c k : string) (s : gmap string value) :
  k ≠ "latitude_input" -> k ≠ "longitude_input" -> k ≠ "last_city" ->
  snd (update_coords c s) !! k = s !! k.
Proof.
  intros H1 H2 H3. unfold update_coords, auto_update.
  destruct (_ || _); [| reflexivity].
  destruct (dict_getitem city_coords c) as [[lat lon] | e]; simpl; [| reflexivity].
  by rewrite !lookup_insert_ne.
Qed.

Lemma selectbox_returns (options : list string) (key c : string)
  (s s0 : gmap string value) :
  selectbox options key s = (Ok c, s0) ->
  s0 !! key = Some (VStr c) /\ forall k, key ≠ k -> s0 !! k = s !! k.
Proof.
  unfold selectbox. intros H.
  destruct (s !! key) as [[c' | x | n] |] eqn:E; try discriminate.
  - injection H as -> ->. auto.
  - destruct options as [| o options]; [discriminate |].
    injection H as -> <-. split; [apply lookup_insert_eq |].
    intros k Hk. by rewrite lookup_insert_ne.
Qed.

(** Lines 49-57 read and write three keys only. *)
Lemma update_coords_agree (c k : string) (s s0 : gmap string value) :
  s0 !! "latitude_input" = s !! "latitude_input" ->
  s0 !! "longitude_input" = s !! "longitude_input" ->
  s0 !! "last_city" = s !! "last_city" ->
  k = "latitude_input" \/ k = "longitude_input" \/ k = "last_city" ->
  snd (update_coords c s0) !! k = snd (update_coords c s) !! k.
Proof.
  intros H1 H2 H3 Hk.
  unfold update_coords, auto_update, not_in, get_ne_str. rewrite H1, H2, H3.
  destruct (_ || _); [| by destruct Hk as [-> | [-> | ->]]].
  destruct (dict_getitem city_coords c) as [[lat lon] | e]; simpl;
    [| by destruct Hk as [-> | [-> | ->]]].
  destruct Hk as [-> | [-> | ->]]; by simplify_map_eq.
Qed.

Ltac widget_tail :=
  repeat first
    [ rewrite coord_input_state; reflexivity
    | apply ret_lookup
    | apply bind_lookup; intros
    | apply selectbox_lookup_ne; discriminate
    | apply int_input_lookup_ne; discriminate
    | apply float_input_lookup_ne; discriminate ].

(** A run leaves the selection where the selectbox keeps it. *)
Lemma sidebar_city_input (c : string) (s : gmap string value) :
  selected_city s = Ok c ->
  snd (sidebar s) !! "city_input" = Some (VStr c).
Proof.
  unfold selected_city, sidebar. intros Hc.
  unfold bind at 1.
  destruct (selectbox _ _ s) as [r s0] eqn:Es. simpl in Hc. subst r.
  destruct (selectbox_returns _ _ _ _ _ Es) as [Hs0 _].
  rewrite <- Hs0. revert s0 Es Hs0. intros s0 _ _. revert s0.
  apply bind_lookup.
  - intros s0. by apply update_coords_lookup_ne.
  - intros _. widget_tail.
Qed.

(** With city [c] selected, a run leaves the coordinates and the
    remembered city as lines 49-57 leave them: no later widget writes to
    them. *)
Lemma sidebar_state (c k : string) (s : gmap string value) :
  selected_city s = Ok c ->
  k = "latitude_input" \/ k = "longitude_input" \/ k = "last_city" ->
  snd (sidebar s) !! k = snd (update_coords c s) !! k.
Proof.
  unfold selected_city, sidebar. intros Hc Hk.
  unfold bind at 1.
  destruct (selectbox _ _ s) as [r s0] eqn:Es. simpl in Hc. subst r.
  destruct (selectbox_returns _ _ _ _ _ Es) as [_ Hs0].
  rewrite <- (update_coords_agree c k s s0) by (try apply Hs0; done).
  unfold bind at 1.
  destruct (update_coords c s0) as [[[] | e] s1]; simpl; [| reflexivity].
  revert s1. destruct Hk as [-> | [-> | ->]]; widget_tail.
Qed.

Lemma dict_get_keys {V : Type} (d : list (string * V)) (k : string) :
  k ∈ dict_keys d <-> is_Some (dict_get d k).
Proof.
  unfold dict_keys. induction d as [| [k' v] d IH]; simpl.
  - split; [intros H; inversion H | intros [v Hv]; discriminate].
  - rewrite elem_of_cons. destruct (String.eqb_spec k' k) as [-> | Hne].
    + split; eauto.
    + rewrite <- IH. split; [intros [-> | H]; [congruence | exact H] | auto].
Qed.

Lemma update_coords_reset (c : string) (lat lon : float) (ss : gmap string value) :
  dict_get city_coords c = Some (lat, lon) ->
  ss !! "latitude_input" = None \/ ss !! "longitude_input" = None
    \/ ss !! "last_city" ≠ Some (VStr c) ->
  snd (update_coords c ss) =
    <["last_city" := VStr c]>
      (<["longitude_input" := VFloat lon]>
         (<["latitude_input" := VFloat lat]> ss)).
Proof.
  intros Hc Hg. unfold update_coords.
  rewrite (auto_update_reset c lat lon ss Hc Hg). reflexivity.
Qed.

Lemma update_coords_keep (c : string) (ss : gmap string value) :
  settled c ss -> snd (update_coords c ss) = ss.
Proof.
  intros (Hc & Hlat & Hlon). unfold update_coords.
  rewrite (auto_update_keep c ss Hlat Hlon Hc). reflexivity.
Qed.

(** Whichever branch is taken, the block ends in a settled state. *)
Lemma update_coords_settles (c : string) (ss : gmap string value) :
  c ∈ dict_keys city_coords -> settled c (snd (update_coords c ss)).
Proof.
  intros Hin. apply dict_get_keys in Hin as [[lat lon] Hc].
  destruct (not_in "latitude_input" ss || not_in "longitude_input" ss
            || get_ne_str ss "last_city" c) eqn:Hg.
  - apply guard_true in Hg.
    rewrite (update_coords_reset c lat lon ss Hc Hg).
    unfold settled. simplify_map_eq. eauto.
  - apply guard_false in Hg as (Hlat & Hlon & Hlast).
    rewrite update_coords_keep; done.
Qed.

Lemma sidebar_settles (c : string) (ss : gmap string value) :
  c ∈ dict_keys city_coords -> selected_city ss = Ok c ->
  settled c (snd (sidebar ss)).
Proof.
  intros Hin Hsel. unfold settled.
  rewrite !(sidebar_state c) by auto.
  by apply update_coords_settles.
Qed.

Lemma selected_city_lookup (c : string) (ss : gmap string value) :
  ss !! "city_input" = Some (VStr c) -> selected_city ss = Ok c.
Proof. intros H. unfold selected_city, selectbox. by rewrite H. Qed.

Lemma selected_city_agree (ss ss' : gmap string value) :
  ss' !! "city_input" = ss !! "city_input" ->
  selected_city ss' = selected_city ss.
Proof. intros H. unfold selected_city, selectbox. rewrite H. by destruct (ss !! _) as [[]|]. Qed.

Lemma sidebar_selected (c : string) (ss : gmap string value) :
  selected_city ss = Ok c -> selected_city (snd (sidebar ss)) = Ok c.
Proof. intros H. by apply selected_city_lookup, sidebar_city_input. Qed.

(** An interaction other than a city choice leaves the selection alone. *)
Lemma apply_event_selected (e : event) (ss : gmap string value) :
  selected_city (apply_event e ss) =
    match e with
    | SelectCity c => Ok c
    | _ => selected_city ss
    end.
Proof.
  destruct e as [| c | x | x]; simpl.
  - reflexivity.
  - apply selected_city_lookup, lookup_insert_eq.
  - apply selected_city_agree. by rewrite lookup_insert_ne.
  - apply selected_city_agree. by rewrite lookup_insert_ne.
Qed.

(** In a settled state a run changes neither coordinate nor the
    remembered city. *)
Lemma sidebar_keep (c k : string) (ss : gmap string value) :
  selected_city ss = Ok c -> settled c ss ->
  k = "latitude_input" \/ k = "longitude_input" \/ k = "last_city" ->
  snd (sidebar ss) !! k = ss !! k.
Proof.
  intros Hsel Hset Hk.
  rewrite (sidebar_state c) by auto. by rewrite update_coords_keep.
Qed.

Lemma sidebar_reset (c : string) (lat lon : float) (ss : gmap string value) :
  dict_get city_coords c = Some (lat, lon) ->
  selected_city ss = Ok c ->
  ss !! "latitude_input" = None \/ ss !! "longitude_input" = None
    \/ ss !! "last_city" ≠ Some (VStr c) ->
  snd (sidebar ss) !! "latitude_input" = Some (VFloat lat)
  /\ snd (sidebar ss) !! "longitude_input" = Some (VFloat lon)
  /\ snd (sidebar ss) !! "last_city" = Some (VStr c).
Proof.
  intros Hc Hsel Hg.
  rewrite !(sidebar_state c) by auto.
  rewrite (update_coords_reset c lat lon ss Hc Hg).
  by simplify_map_eq.
Qed.

(** The run after choosing an offered city ends settled on that city. *)
Lemma render_select_settles (c : string) (ss : gmap string value) :
  c ∈ dict_keys city_coords ->
  selected_city (render (SelectCity c) ss) = Ok c
  /\ settled c (render (SelectCity c) ss).
Proof.
  intros Hin. unfold render.
  assert (Hsel := apply_event_selected (SelectCity c) ss). simpl in Hsel.
  split; [by apply sidebar_selected | by apply sidebar_settles].
Qed.

(** Editing the latitude of a settled state: the next run keeps the edit
    and stays settled. *)
Lemma render_edit_latitude (c : string) (x : float) (ss : gmap string value) :
  selected_city ss = Ok c -> settled c ss ->
  selected_city (render (EditLatitude x) ss) = Ok c
  /\ settled c (render (EditLatitude x) ss)
  /\ render (EditLatitude x) ss !! "latitude_input" = Some (VFloat x).
Proof.
  intros Hsel (Hlast & Hlat & Hlon). unfold render.
  assert (Hsel' : selected_city (apply_event (EditLatitude x) ss) = Ok c)
    by (by rewrite apply_event_selected).
  assert (Hset' : settled c (apply_event (EditLatitude x) ss))
    by (unfold settled; simpl; by simplify_map_eq).
  split; [by apply sidebar_selected |].
  unfold settled. rewrite !(sidebar_keep c) by auto.
  split; [exact Hset' |]. simpl. by simplify_map_eq.
Qed.

Lemma render_rerun (c k : string) (ss : gmap string value) :
  selected_city ss = Ok c -> settled c ss ->
  k = "latitude_input" \/ k = "longitude_input" \/ k = "last_city" ->
  render Rerun ss !! k = ss !! k.
Proof. intros Hsel Hset Hk. unfold render. simpl. by apply (sidebar_keep c). Qed.

(** ** A run of the sidebar completes *)

Lemma bind_step {S A B : Type} (m : M S A) (f : A -> M S B) (s s' : S) (a : A) :
  m s = (Ok a, s') -> bind m f s = f a s'.
Proof. intros E. unfold bind. by rewrite E. Qed.

Lemma selectbox_total (o : string) (options : list string) (key : string)
  (s : gmap string value) :
  holds_str (s !! key) ->
  exists c s', selectbox (o :: options) key s = (Ok c, s')
               /\ s' !! key = Some (VStr c)
               /\ forall k, key ≠ k -> s' !! k = s !! k.
Proof.
  intros H.
  assert (exists c s', selectbox (o :: options) key s = (Ok c, s')) as (c & s' & E).
  { unfold selectbox. destruct (s !! key) as [[c | x | n] |]; simpl in H; eauto; done. }
  exists c, s'. split; [exact E |]. by apply selectbox_returns in E.
Qed.

Lemma int_input_total (lo hi d : Z) (key : string) (s : gmap string value) :
  holds_int (s !! key) ->
  exists n s', int_input lo hi d key s = (Ok n, s')
               /\ s' !! key = Some (VInt n)
               /\ forall k, key ≠ k -> s' !! k = s !! k.
Proof.
  intros H. unfold int_input.
  destruct (s !! key) as [[c | x | n] |] eqn:E; simpl in H; try done.
  - exists n, s. auto.
  - exists d, (<[key := VInt d]> s). split; [done |].
    split; [apply lookup_insert_eq |]. intros k Hk. by rewrite lookup_insert_ne.
Qed.

Lemma float_input_total (d : float) (key : string) (s : gmap string value) :
  holds_float (s !! key) ->
  exists x s', float_input d key s = (Ok x, s')
               /\ s' !! key = Some (VFloat x)
               /\ forall k, key ≠ k -> s' !! k = s !! k.
Proof.
  intros H. unfold float_input.
  destruct (s !! key) as [[c | x | n] |] eqn:E; simpl in H; try done.
  - exists x, s. auto.
  - exists d, (<[key := VFloat d]> s). split; [done |].
    split; [apply lookup_insert_eq |]. intros k Hk. by rewrite lookup_insert_ne.
Qed.

(** Lines 49-57 leave both coordinates as floats when they find them so. *)
Lemma update_coords_total (c : string) (s : gmap string value) :
  c ∈ dict_keys city_coords ->
  holds_float (s !! "latitude_input") -> holds_float (s !! "longitude_input") ->
  exists x y s',
    update_coords c s = (Ok tt, s')
    /\ s' !! "latitude_input" = Some (VFloat x)
    /\ s' !! "longitude_input" = Some (VFloat y)
    /\ forall k, k ≠ "latitude_input" -> k ≠ "longitude_input" ->
                 k ≠ "last_city" -> s' !! k = s !! k.
Proof.
  intros Hin Hlat Hlon. apply dict_get_keys in Hin as [[lat lon] Hc].
  unfold update_coords, auto_update, dict_getitem. rewrite Hc.
  destruct (not_in "latitude_input" s || not_in "longitude_input" s
            || get_ne_str s "last_city" c) eqn:Hg.
  - exists lat, lon. eexists. split; [reflexivity |].
    split; [by simplify_map_eq |]. split; [by simplify_map_eq |].
    intros k H1 H2 H3. by rewrite !lookup_insert_ne.
  - apply guard_false in Hg as ([vx Hx] & [vy Hy] & _).
    rewrite Hx in Hlat. rewrite Hy in Hlon.
    destruct vx as [| x |]; try done. destruct vy as [| y |]; try done.
    exists x, y, s. auto.
Qed.

Ltac through :=
  repeat match goal with
    | H : forall k, _ ≠ k -> ?s !! k = _ |- context [?s !! ?key] =>
        rewrite (H key) by discriminate
    | H : forall k, k ≠ _ -> k ≠ _ -> k ≠ _ -> ?s !! k = _
      |- context [?s !! ?key] =>
        rewrite (H key) by discriminate
    end.

Ltac next_widget lem c s E Hkey Hs :=
  match goal with
  | |- context [bind (?w ?a ?b ?c0 ?key) _ ?s0] =>
      destruct (lem a b c0 key s0) as (c & s & E & Hkey & Hs); [through; assumption |];
      rewrite (bind_step _ _ _ _ _ E)
  | |- context [bind (?w ?a ?key) _ ?s0] =>
      destruct (lem a key s0) as (c & s & E & Hkey & Hs); [through; assumption |];
      rewrite (bind_step _ _ _ _ _ E)
  end.

(** From a well-typed state with a city of the table selected, the sidebar
    returns a form state: its city is the selection and its coordinates
    are those the session state holds at the end of the run, which is
    well-typed again. *)
Lemma sidebar_total (c : string) (ss : gmap string value) :
  well_typed ss -> c ∈ dict_keys city_coords -> selected_city ss = Ok c ->
  exists fs,
    fst (sidebar ss) = Ok fs
    /\ city fs = c
    /\ snd (sidebar ss) !! "latitude_input" = Some (VFloat (latitude fs))
    /\ snd (sidebar ss) !! "longitude_input" = Some (VFloat (longitude fs))
    /\ well_typed (snd (sidebar ss)).
Proof.
  intros (T1 & T2 & T3 & T4 & T5 & T6 & T7 & T8 & T9 & T10) Hin Hsel.
  unfold sidebar, dict_keys. simpl map.
  destruct (selectbox_total "Paris" (tail (dict_keys city_coords)) "city_input" ss T1)
    as (c0 & s1 & E1 & K1 & S1).
  assert (c0 = c) as ->.
  { unfold selected_city, dict_keys in Hsel. simpl map in Hsel.
    simpl tail in E1. rewrite E1 in Hsel. by injection Hsel. }
  simpl tail in E1. rewrite (bind_step _ _ _ _ _ E1).
  destruct (update_coords_total c s1 Hin) as (x & y & s2 & E2 & Kx & Ky & S2);
    [through; assumption | through; assumption |].
  rewrite (bind_step _ _ _ _ _ E2).
  rewrite (bind_step _ _ _ _ _ (coord_input_value _ x s2 Kx)).
  rewrite (bind_step _ _ _ _ _ (coord_input_value _ y s2 Ky)).
  unfold room_types.
  destruct (selectbox_total "Entire home/apt" ["Private room"; "Shared room"]
              "room_type_input" s2) as (rt & s3 & E3 & K3 & S3);
    [through; assumption |].
  rewrite (bind_step _ _ _ _ _ E3).
  next_widget int_input_total mn s4 E4 K4 S4.
  next_widget int_input_total nr s5 E5 K5 S5.
  next_widget float_input_total rpm s6 E6 K6 S6.
  next_widget int_input_total hl s7 E7 K7 S7.
  next_widget int_input_total av s8 E8 K8 S8.
  next_widget int_input_total ltm s9 E9 K9 S9.
  eexists. unfold ret. simpl.
  split; [reflexivity |]. split; [reflexivity |].
  split; [through; exact Kx |]. split; [through; exact Ky |].
  unfold well_typed. through.
  rewrite K1, Kx, Ky, K3, K4, K5, K6, K7, K8, K9. simpl. tauto.
Qed.

Lemma apply_event_well_typed (e : event) (ss : gmap string value) :
  well_typed ss -> well_typed (apply_event e ss).
Proof.
  unfold well_typed. intros (T1 & T2 & T3 & T4 & T5 & T6 & T7 & T8 & T9 & T10).
  destruct e as [| c | x | x]; simpl apply_event;
    rewrite ?lookup_insert_eq, ?lookup_insert_ne by discriminate;
    simpl; tauto.
Qed.

Lemma render_well_typed (e : event) (c : string) (ss : gmap string value) :
  well_typed ss -> c ∈ dict_keys city_coords ->
  selected_city (apply_event e ss) = Ok c ->
  well_typed (render e ss).
Proof.
  intros Hwt Hin Hsel. unfold render.
  by destruct (sidebar_total c _ (apply_event_well_typed e ss Hwt) Hin Hsel)
    as (fs & _ & _ & _ & _ & H).
Qed.

(** The form state a run returns shows the coordinates the session state
    holds. *)
Lemma sidebar_returns (c : string) (x y : float) (ss : gmap string value) :
  well_typed ss -> c ∈ dict_keys city_coords -> selected_city ss = Ok c ->
  snd (sidebar ss) !! "latitude_input" = Some (VFloat x) ->
  snd (sidebar ss) !! "longitude_input" = Some (VFloat y) ->
  exists fs, fst (sidebar ss) = Ok fs
             /\ city fs = c /\ latitude fs = x /\ longitude fs = y.
Proof.
  intros Hwt Hin Hsel Hx Hy.
  destruct (sidebar_total c ss Hwt Hin Hsel) as (fs & E & Hc & Hlat & Hlon & _).
  exists fs. split; [exact E |]. split; [exact Hc |]. split; congruence.
Qed.

(** C1: for a city C of the table with stored coordinates (lat, lon), a
    run that starts with C selected and with the remembered city unset, a
    coordinate unset, or the remembered city different from C, sets the
    latitude to lat, the longitude to lon and the remembered city to C:
    lines 49-57 write exactly these three entries, the state at the end of
    the run holds them, and the coordinate fields of a well-typed state
    return them. *)
Theorem C1_city_defaults_applied (C : string) (lat lon : float)
  (ss : gmap string value) :
  dict_get city_coords C = Some (lat, lon) ->
  selected_city ss = Ok C ->
  ss !! "last_city" = None \/ ss !! "latitude_input" = None
    \/ ss !! "longitude_input" = None \/ ss !! "last_city" ≠ Some (VStr C) ->
  auto_update C ss =
    Ok (<["last_city" := VStr C]>
          (<["longitude_input" := VFloat lon]>
             (<["latitude_input" := VFloat lat]> ss)))
  /\ snd (sidebar ss) !! "latitude_input" = Some (VFloat lat)
  /\ snd (sidebar ss) !! "longitude_input" = Some (VFloat lon)
  /\ snd (sidebar ss) !! "last_city" = Some (VStr C)
  /\ (well_typed ss ->
      exists fs, fst (sidebar ss) = Ok fs
                 /\ city fs = C /\ latitude fs = lat /\ longitude fs = lon).
Proof.
  intros Hc Hsel Hg.
  assert (Hg' : ss !! "latitude_input" = None \/ ss !! "longitude_input" = None
                \/ ss !! "last_city" ≠ Some (VStr C)).
  { destruct Hg as [H | [H | [H | H]]]; auto. right; right. congruence. }
  split; [by apply auto_update_reset |].
  destruct (sidebar_reset C lat lon ss Hc Hsel Hg') as (Hlat & Hlon & Hlast).
  repeat (split; [assumption |]).
  intros Hwt. apply sidebar_returns; try done.
  apply dict_get_keys. eauto.
Qed.

Lemma C1_city_defaults_applied_witness :
  let ss : gmap string value :=
    <["city_input" := VStr "Rome"]> (<["last_city" := VStr "Paris"]> ∅) in
  snd (sidebar ss) !! "latitude_input" = Some (VFloat 41.9028)
  /\ snd (sidebar ss) !! "longitude_input" = Some (VFloat 12.4964)
  /\ snd (sidebar ss) !! "last_city" = Some (VStr "Rome").
Proof.
  intros ss.
  destruct (C1_city_defaults_applied "Rome" 41.9028 12.4964 ss)
    as (_ & Hlat & Hlon & Hlast & _).
  - reflexivity.
  - reflexivity.
  - right; left. reflexivity.
  - exact (conj Hlat (conj Hlon Hlast)).
Defined.

(** C2: in a state where the remembered city is the selected city C and
    both coordinates are set, lines 49-57 change nothing and the run leaves
    both coordinates as they were; and from any state, choosing city C,
    then editing the latitude to L, then re-running without changing the
    city, leaves the latitude at L, which is what the latitude field of
    that last run returns when the starting state is well-typed. *)
Theorem C2_manual_edit_kept (C : string) (L : float) (vlat vlon : value)
  (ss ss0 : gmap string value) :
  C ∈ dict_keys city_coords ->
  selected_city ss = Ok C ->
  ss !! "last_city" = Some (VStr C) ->
  ss !! "latitude_input" = Some vlat ->
  ss !! "longitude_input" = Some vlon ->
  (auto_update C ss = Ok ss
   /\ render Rerun ss !! "latitude_input" = Some vlat
   /\ render Rerun ss !! "longitude_input" = Some vlon)
  /\ renders [SelectCity C; EditLatitude L] ss0 !! "latitude_input"
       = Some (VFloat L)
  /\ renders [SelectCity C; EditLatitude L; Rerun] ss0 !! "latitude_input"
       = Some (VFloat L)
  /\ (well_typed ss0 ->
      exists fs,
        fst (sidebar (apply_event Rerun
                        (renders [SelectCity C; EditLatitude L] ss0))) = Ok fs
        /\ city fs = C /\ latitude fs = L).
Proof.
  intros Hin Hsel Hlast Hlat Hlon.
  assert (Hset : settled C ss) by (unfold settled; eauto).
  split.
  - split; [apply auto_update_keep; eauto |].
    rewrite !(render_rerun C) by auto. auto.
  - simpl.
    destruct (render_select_settles C ss0 Hin) as [Hsel1 Hset1].
    destruct (render_edit_latitude C L _ Hsel1 Hset1) as (Hsel2 & Hset2 & Hl2).
    split; [exact Hl2 |].
    assert (Hl3 := render_rerun C "latitude_input" _ Hsel2 Hset2 (or_introl eq_refl)).
    rewrite Hl2 in Hl3.
    split; [exact Hl3 |].
    intros Hwt.
    assert (Hwt1 : well_typed (render (SelectCity C) ss0)).
    { apply (render_well_typed _ C); [done | done |].
      by rewrite apply_event_selected. }
    assert (Hwt2 : well_typed (render (EditLatitude L) (render (SelectCity C) ss0))).
    { apply (render_well_typed _ C); [done | done |].
      by rewrite apply_event_selected. }
    destruct (sidebar_total C _ Hwt2 Hin Hsel2) as (fs & E & Hc & Hx & _).
    exists fs. split; [exact E |]. split; [exact Hc |].
    unfold render in Hl3 at 1. simpl apply_event in Hl3. congruence.
Qed.

Lemma C2_manual_edit_kept_witness :
  renders [SelectCity "Berlin"; EditLatitude 52.6; Rerun] ∅ !! "latitude_input"
    = Some (VFloat 52.6).
Proof.
  refine (proj1 (proj2 (proj2
            (C2_manual_edit_kept "Berlin" 52.6 (VFloat 52.5200) (VFloat 13.4050)
               (render (SelectCity "Berlin") ∅) ∅ _ _ _ _ _)))).
  - apply dict_get_keys. vm_compute. eauto.
  - vm_compute. reflexivity.
  - vm_compute. reflexivity.
  - vm_compute. reflexivity.
  - vm_compute. reflexivity.
Defined.

Lemma renders_snoc (es : list event) (e : event) (ss : gmap string value) :
  renders (es ++ [e]) ss = render e (renders es ss).
Proof. unfold renders. by rewrite foldl_app. Qed.

(** The selection before any run is the first city of the table, and every
    offered interaction keeps it inside the table. *)
Lemma render_offered (e : event) (c : string) (ss : gmap string value) :
  offered e -> c ∈ dict_keys city_coords -> selected_city ss = Ok c ->
  exists c', c' ∈ dict_keys city_coords
             /\ selected_city (apply_event e ss) = Ok c'.
Proof.
  intros He Hin Hsel. rewrite apply_event_selected.
  destruct e as [| c0 | x | x]; simpl in He; eauto.
Qed.

Lemma renders_selected (es : list event) :
  Forall offered es ->
  exists c, c ∈ dict_keys city_coords /\ selected_city (renders es ∅) = Ok c.
Proof.
  induction es as [| e es IH] using rev_ind; intros Hes.
  - exists "Paris". split; [| reflexivity].
    apply dict_get_keys. vm_compute. eauto.
  - apply Forall_app in Hes as [Hes He]. apply Forall_cons in He as [He _].
    destruct (IH Hes) as (c & Hin & Hsel).
    destruct (render_offered e c _ He Hin Hsel) as (c' & Hin' & Hsel').
    exists c'. split; [exact Hin' |].
    rewrite renders_snoc. unfold render. by apply sidebar_selected.
Qed.

Lemma renders_settled (es : list event) (e : event) :
  Forall offered (es ++ [e]) ->
  exists c, c ∈ dict_keys city_coords
            /\ selected_city (renders (es ++ [e]) ∅) = Ok c
            /\ settled c (renders (es ++ [e]) ∅).
Proof.
  intros Hes. apply Forall_app in Hes as [Hes He].
  apply Forall_cons in He as [He _].
  destruct (renders_selected es Hes) as (c & Hin & Hsel).
  destruct (render_offered e c _ He Hin Hsel) as (c' & Hin' & Hsel').
  exists c'. rewrite renders_snoc. unfold render.
  split; [exact Hin' |].
  split; [by apply sidebar_selected | by apply sidebar_settles].
Qed.

(** After a run settled on [c], the remembered city can differ from the
    selection at the next run only if the interaction chose another city. *)
Lemma differs_only_on_change (c c' : string) (e : event)
  (ss : gmap string value) :
  selected_city ss = Ok c -> settled c ss ->
  selected_city (apply_event e ss) = Ok c' ->
  apply_event e ss !! "last_city" ≠ Some (VStr c') ->
  e = SelectCity c' /\ c' ≠ c.
Proof.
  intros Hsel (Hlast & _ & _) Hsel' Hne.
  rewrite apply_event_selected in Hsel'.
  assert (Hl : apply_event e ss !! "last_city" = Some (VStr c))
    by (destruct e; simpl; by simplify_map_eq).
  rewrite Hl in Hne.
  destruct e as [| c0 | x | x]; try congruence.
  injection Hsel' as ->. split; congruence.
Qed.

(** C6: for two different cities A and B of the table: choosing A,
    editing the latitude to L (which the next run keeps), choosing B, then
    choosing A again ends with the latitude at A's stored default, which is
    what the latitude field of that last run returns when the starting
    state is well-typed. *)
Theorem C6_reset_on_return (A B : string) (latA lonA L : float)
  (ss0 : gmap string value) :
  dict_get city_coords A = Some (latA, lonA) ->
  B ∈ dict_keys city_coords ->
  A ≠ B ->
  renders [SelectCity A; EditLatitude L] ss0 !! "latitude_input"
    = Some (VFloat L)
  /\ renders [SelectCity A; EditLatitude L; SelectCity B; SelectCity A] ss0
       !! "latitude_input" = Some (VFloat latA)
  /\ (well_typed ss0 ->
      exists fs,
        fst (sidebar (apply_event (SelectCity A)
                        (renders [SelectCity A; EditLatitude L; SelectCity B] ss0)))
          = Ok fs
        /\ city fs = A /\ latitude fs = latA).
Proof.
  intros HA HB Hne.
  assert (HinA : A ∈ dict_keys city_coords) by (apply dict_get_keys; eauto).
  simpl.
  destruct (render_select_settles A ss0 HinA) as [Hsel1 Hset1].
  destruct (render_edit_latitude A L _ Hsel1 Hset1) as (Hsel2 & _ & Hl2).
  split; [exact Hl2 |].
  set (s1 := render (SelectCity A) ss0) in *.
  set (s2 := render (EditLatitude L) s1) in *.
  set (s3 := render (SelectCity B) s2).
  destruct (render_select_settles B s2 HB) as [_ (Hlast3 & _ & _)]. fold s3 in Hlast3.
  assert (Hsel4 : selected_city (apply_event (SelectCity A) s3) = Ok A)
    by (by rewrite apply_event_selected).
  destruct (sidebar_reset A latA lonA (apply_event (SelectCity A) s3) HA Hsel4)
    as (Hlat4 & Hlon4 & _).
  { right; right. simpl. rewrite lookup_insert_ne by done.
    rewrite Hlast3. congruence. }
  split; [exact Hlat4 |].
  intros Hwt.
  assert (Hwt1 : well_typed s1)
    by (apply (render_well_typed _ A); [done | done | by rewrite apply_event_selected]).
  assert (Hwt2 : well_typed s2)
    by (apply (render_well_typed _ A); [done | done | by rewrite apply_event_selected]).
  assert (Hwt3 : well_typed s3)
    by (apply (render_well_typed _ B); [done | done | by rewrite apply_event_selected]).
  destruct (sidebar_returns A latA lonA (apply_event (SelectCity A) s3))
    as (fs & E & Hc & Hx & _); try done; [by apply apply_event_well_typed |].
  exists fs. auto.
Qed.

Lemma C6_reset_on_return_witness :
  renders [SelectCity "Oslo"; EditLatitude 60.0; SelectCity "Dublin";
           SelectCity "Oslo"] ∅ !! "latitude_input" = Some (VFloat 59.9139).
Proof.
  refine (proj1 (proj2
            (C6_reset_on_return "Oslo" "Dublin" 59.9139 10.7522 60.0 ∅ _ _ _))).
  - reflexivity.
  - apply dict_get_keys. vm_compute. eauto.
  - discriminate.
Defined.

Lemma renders_well_typed (es : list event) :
  Forall offered es -> well_typed (renders es ∅).
Proof.
  induction es as [| e es IH] using rev_ind; intros Hes.
  - unfold well_typed. simpl. rewrite !lookup_empty. simpl. tauto.
  - apply Forall_app in Hes as [Hes He]. apply Forall_cons in He as [He _].
    destruct (renders_selected es Hes) as (c & Hin & Hsel).
    destruct (render_offered e c _ He Hin Hsel) as (c' & Hin' & Hsel').
    rewrite renders_snoc. apply (render_well_typed e c'); auto.
Qed.

(** C9: with a city c of the table selected, lines 49-57 succeed and,
    whichever branch they take, leave the remembered city equal to c and
    both coordinates set, and so does the whole run.  Hence, at the start
    of the next run the remembered city differs from the selection only if
    the interaction chose a different city; along a session that starts
    with nothing stored, it differs only at the first run or right after
    such a choice, and the sidebar of every run of such a session returns a
    form state. *)
Theorem C9_run_settles (c : string) (ss : gmap string value)
  (es : list event) :
  c ∈ dict_keys city_coords ->
  selected_city ss = Ok c ->
  Forall offered es ->
  (exists ss1, auto_update c ss = Ok ss1 /\ settled c ss1)
  /\ settled c (snd (sidebar ss))
  /\ (forall e c',
        selected_city (apply_event e (snd (sidebar ss))) = Ok c' ->
        apply_event e (snd (sidebar ss)) !! "last_city" ≠ Some (VStr c') ->
        e = SelectCity c' /\ c' ≠ c)
  /\ (forall e c',
        selected_city (apply_event e (renders es ∅)) = Ok c' ->
        apply_event e (renders es ∅) !! "last_city" ≠ Some (VStr c') ->
        es = [] \/ (e = SelectCity c' /\ selected_city (renders es ∅) ≠ Ok c'))
  /\ (forall e, offered e ->
        exists fs c', fst (sidebar (apply_event e (renders es ∅))) = Ok fs
                      /\ city fs = c' /\ settled c' (render e (renders es ∅))).
Proof.
  intros Hin Hsel Hes.
  split; [| split; [| split; [| split]]].
  - assert (Hs := update_coords_settles c ss Hin). unfold update_coords in Hs.
    destruct (auto_update c ss) as [ss1 | e] eqn:E; [eauto |].
    exfalso. apply dict_get_keys in Hin as [[lat lon] Hc].
    unfold auto_update, dict_getitem in E. rewrite Hc in E.
    destruct (_ || _); discriminate.
  - by apply sidebar_settles.
  - intros e c'. apply differs_only_on_change.
    + by apply sidebar_selected.
    + by apply sidebar_settles.
  - intros e c'. revert Hes.
    induction es as [| e0 es0 _] using rev_ind; intros Hes Hsel' Hne;
      [by left | right].
    destruct (renders_settled es0 e0 Hes) as (c0 & _ & Hsel0 & Hset0).
    destruct (differs_only_on_change c0 c' e _ Hsel0 Hset0 Hsel' Hne) as [-> Hc].
    split; [reflexivity | congruence].
  - intros e He.
    destruct (renders_selected es Hes) as (c0 & Hin0 & Hsel0).
    destruct (render_offered e c0 _ He Hin0 Hsel0) as (c' & Hin' & Hsel').
    assert (Hwt := apply_event_well_typed e _ (renders_well_typed es Hes)).
    destruct (sidebar_total c' _ Hwt Hin' Hsel') as (fs & E & Hc & _).
    exists fs, c'. split; [exact E |]. split; [exact Hc |].
    unfold render. by apply sidebar_settles.
Qed.

Lemma C9_run_settles_witness :
  settled "Paris" (snd (sidebar ∅)).
Proof.
  refine (proj1 (proj2 (C9_run_settles "Paris" ∅ [Rerun; SelectCity "Rome"] _ _ _))).
  - apply dict_get_keys. vm_compute. eauto.
  - reflexivity.
  - repeat constructor.
Defined.

(** ** Encodings and the feature row *)

Lemma dict_get_elem_of {V : Type} (d : list (string * V)) (k : string) (v : V) :
  dict_get d k = Some v -> (k, v) ∈ d.
Proof.
  induction d as [| [k' v'] d IH]; simpl; [discriminate |].
  destruct (String.eqb_spec k' k) as [-> | Hne].
  - intros [= ->]. apply list_elem_of_here.
  - intros H. apply list_elem_of_further, IH, H.
Qed.

(** The code of a city is its position among the keys of [city_coords]. *)
Lemma city_map_position (i : nat) (c : string) :
  dict_keys city_coords !! i = Some c ->
  dict_get city_map c = Some (Z.of_nat i).
Proof.
  intros H.
  do 15 (destruct i as [| i]; [injection H as <-; reflexivity |]).
  discriminate.
Qed.

Lemma city_map_code (c : string) (n : Z) :
  dict_get city_map c = Some n ->
  (0 <= n)%Z /\ dict_keys city_coords !! Z.to_nat n = Some c.
Proof.
  intros H. apply dict_get_elem_of in H.
  assert (Hall : Forall (fun kv : string * Z =>
                           (0 <= snd kv)%Z
                           /\ dict_keys city_coords !! Z.to_nat (snd kv)
                              = Some (fst kv)) city_map).
  { vm_compute. repeat constructor; discriminate. }
  rewrite Forall_forall in Hall. exact (Hall _ H).
Qed.

Lemma room_type_map_position (i : nat) (r : string) :
  room_types !! i = Some r ->
  dict_get room_type_map r = Some (Z.of_nat i).
Proof.
  intros H.
  do 3 (destruct i as [| i]; [injection H as <-; reflexivity |]).
  discriminate.
Qed.

(** C7: the code of the city at position i of the ordered city list is i
    (counting from 0), and no other city has that code; the code of a room
    type is its position among the three labels: Entire home/apt is 0,
    Private room is 1, Shared room is 2. *)
Theorem C7_codes_are_positions (i : nat) (c : string) :
  dict_keys city_coords !! i = Some c ->
  dict_get city_map c = Some (Z.of_nat i)
  /\ (forall c', dict_get city_map c' = Some (Z.of_nat i) -> c' = c)
  /\ (forall j r, room_types !! j = Some r ->
                  dict_get room_type_map r = Some (Z.of_nat j))
  /\ dict_get room_type_map "Entire home/apt" = Some 0%Z
  /\ dict_get room_type_map "Private room" = Some 1%Z
  /\ dict_get room_type_map "Shared room" = Some 2%Z.
Proof.
  intros H. split; [by apply city_map_position |].
  split.
  - intros c' Hc'. apply city_map_code in Hc' as [_ Hc'].
    rewrite Nat2Z.id in Hc'. congruence.
  - split; [apply room_type_map_position |]. by repeat split.
Qed.

Lemma C7_codes_are_positions_witness :
  dict_get city_map "Berlin" = Some 3%Z.
Proof.
  refine (proj1 (C7_codes_are_positions 3 "Berlin" _)).
  reflexivity.
Defined.

(** C3: the feature row is a function of the widget values alone, so equal
    form states give equal rows; for a city of the table and one of the
    three room types it is the row [latitude, longitude, room type code,
    minimum_nights, number_of_reviews, reviews_per_month, host listings
    count, availability_365, reviews in the last twelve months, city code],
    under the column labels of [columns_order], in this order. *)
Theorem C3_feature_row_order (fs : FormState) :
  city fs ∈ dict_keys city_coords ->
  room_type fs ∈ room_types ->
  (forall fs', fs' = fs -> input_df fs' = input_df fs)
  /\ exists r c,
       dict_get room_type_map (room_type fs) = Some r
       /\ dict_get city_map (city fs) = Some c
       /\ input_df fs =
            Ok {| columns :=
                    [ "latitude"; "longitude"; "room_type"; "minimum_nights";
                      "number_of_reviews"; "reviews_per_month";
                      "calculated_host_listings_count"; "availability_365";
                      "number_of_reviews_ltm"; "city" ];
                  rows :=
                    [ [ VFloat (latitude fs); VFloat (longitude fs); VInt r;
                        VInt (minimum_nights fs); VInt (number_of_reviews fs);
                        VFloat (reviews_per_month fs);
                        VInt (calculated_host_listings_count fs);
                        VInt (availability_365 fs);
                        VInt (number_of_reviews_ltm fs); VInt c ] ] |}.
Proof.
  intros Hc Hr. split; [by intros fs' -> |].
  apply list_elem_of_lookup in Hc as [i Hi].
  apply list_elem_of_lookup in Hr as [j Hj].
  exists (Z.of_nat j), (Z.of_nat i).
  assert (Er := room_type_map_position j _ Hj).
  assert (Ec := city_map_position i _ Hi).
  split; [exact Er |]. split; [exact Ec |].
  unfold input_df, input_dict, dict_getitem. rewrite Er, Ec. reflexivity.
Qed.

Lemma C3_feature_row_order_witness :
  let fs := {| city := "Vienna"; latitude := 48.21; longitude := 16.37;
               room_type := "Private room"; minimum_nights := 2;
               number_of_reviews := 12; reviews_per_month := 0.4;
               calculated_host_listings_count := 3; availability_365 := 90;
               number_of_reviews_ltm := 5 |} in
  city fs ∈ dict_keys city_coords
  /\ room_type fs ∈ room_types
  /\ input_df fs =
       Ok {| columns := columns_order;
             rows := [ [ VFloat 48.21; VFloat 16.37; VInt 1; VInt 2; VInt 12;
                         VFloat 0.4; VInt 3; VInt 90; VInt 5; VInt 7 ] ] |}.
Proof.
  intros fs.
  assert (Hc : city fs ∈ dict_keys city_coords)
    by (apply dict_get_keys; vm_compute; eauto).
  assert (Hr : room_type fs ∈ room_types)
    by (apply list_elem_of_lookup; exists 1%nat; reflexivity).
  split; [exact Hc |]. split; [exact Hr |].
  destruct (C3_feature_row_order fs Hc Hr) as [_ (r & c & Er & Ec & E)].
  vm_compute in Er, Ec. injection Er as <-. injection Ec as <-. exact E.
Defined.

(** C5: for the form state with city Paris, latitude 48.8566, longitude
    2.3522, room type Entire home/apt, minimum_nights 1, number_of_reviews
    50, reviews_per_month 0.0, host listings count 1, availability_365 200
    and 0 reviews in the last twelve months, the feature row is
    [48.8566, 2.3522, 0, 1, 50, 0.0, 1, 200, 0, 0]; Paris is the first key
    of the table and has code 0.  This form state is the one a first run
    with nothing stored produces. *)
Theorem C5_paris_example :
  let fs := {| city := "Paris"; latitude := 48.8566; longitude := 2.3522;
               room_type := "Entire home/apt"; minimum_nights := 1;
               number_of_reviews := 50; reviews_per_month := 0.0;
               calculated_host_listings_count := 1; availability_365 := 200;
               number_of_reviews_ltm := 0 |} in
  input_df fs =
    Ok {| columns := columns_order;
          rows := [ [ VFloat 48.8566; VFloat 2.3522; VInt 0; VInt 1; VInt 50;
                      VFloat 0.0; VInt 1; VInt 200; VInt 0; VInt 0 ] ] |}
  /\ dict_keys city_coords !! 0%nat = Some "Paris"
  /\ dict_get city_map "Paris" = Some 0%Z
  /\ fst (sidebar ∅) = Ok fs.
Proof.
  intros fs. repeat split; vm_compute; reflexivity.
Qed.

(** ** Ranking *)

Lemma rev_lookup_Some {A : Type} (l : list A) (a : nat) (x : A) :
  rev l !! a = Some x <->
  l !! (length l - S a)%nat = Some x /\ (a < length l)%nat.
Proof.
  rewrite rev_alt. exact (reverse_lookup_Some l a x).
Qed.

Lemma rev_Permutation {A : Type} (l : list A) : rev l ≡ₚ l.
Proof. rewrite rev_alt. exact (reverse_Permutation l). Qed.

Section RankingFacts.
Context {W : Type}.
Variable less : W -> W -> bool.
Variable v : list W.
Variable l : list nat.
Hypothesis l_sorts : sorts less v l.

Lemma sorts_length : length l = length v.
Proof. destruct l_sorts as [Hp _]. by rewrite Hp, length_seq. Qed.

Lemma sorts_NoDup : NoDup (rev l).
Proof.
  destruct l_sorts as [Hp _]. rewrite rev_Permutation, Hp. apply NoDup_seq.
Qed.

Lemma sorts_elem (i : nat) : i ∈ rev l <-> (i < length v)%nat.
Proof.
  destruct l_sorts as [Hp _]. rewrite rev_Permutation, Hp, elem_of_seq. lia.
Qed.

(** Reversed, the order is descending: no position is lighter than a
    later one. *)
Lemma sorts_descending (a b i j : nat) :
  rev l !! a = Some i -> rev l !! b = Some j -> (a < b)%nat ->
  weight_before less v i j.
Proof.
  intros Ha Hb Hab.
  assert (Hi : (i < length v)%nat)
    by (apply sorts_elem; by eapply list_elem_of_lookup_2).
  assert (Hj : (j < length v)%nat)
    by (apply sorts_elem; by eapply list_elem_of_lookup_2).
  apply lookup_lt_is_Some in Hi as [wi Hi].
  apply lookup_lt_is_Some in Hj as [wj Hj].
  exists wi, wj. split; [exact Hi |]. split; [exact Hj |].
  apply rev_lookup_Some in Ha as [Ha Hla].
  apply rev_lookup_Some in Hb as [Hb Hlb].
  destruct l_sorts as [_ Hasc].
  apply (Hasc (length l - S b)%nat (length l - S a)%nat j i wj wi);
    [done | done | lia | done | done].
Qed.

(** The first [m] positions of the descending order are ranked. *)
Lemma take_ranked (m : nat) :
  ranked (weight_before less v) (length v) (take m (rev l)).
Proof.
  split.
  - intros a b i j Ha Hb Hab.
    apply lookup_take_Some in Ha as [Ha _]. apply lookup_take_Some in Hb as [Hb _].
    by apply (sorts_descending a b).
  - intros i k Hi Hk Hnot.
    apply list_elem_of_lookup in Hi as [a Ha].
    apply lookup_take_Some in Ha as [Ha Ham].
    assert (Hin : k ∈ rev l) by (by apply sorts_elem).
    apply list_elem_of_lookup in Hin as [b Hb].
    apply (sorts_descending a b); [done | done |].
    destruct (decide (b < m)%nat) as [Hbm | Hbm]; [| lia].
    exfalso. apply Hnot. apply list_elem_of_lookup. exists b.
    apply lookup_take_Some. auto.
Qed.

Hypothesis less_irrefl : Forall (fun w => less w w = false) v.

Lemma heavier_at_irrefl (i : nat) : heavier_at less v i i = false.
Proof.
  unfold heavier_at. destruct (v !! i) as [w |] eqn:E; [| reflexivity].
  rewrite Forall_forall in less_irrefl. apply less_irrefl.
  by eapply list_elem_of_lookup_2.
Qed.

(** Where a heavier position stands in the descending order. *)
Lemma heavier_at_earlier (a b i j : nat) :
  rev l !! a = Some i -> rev l !! b = Some j ->
  heavier_at less v i j = true -> (b < a)%nat.
Proof.
  intros Ha Hb Hh.
  destruct (decide (b < a)%nat) as [| Hge]; [done | exfalso].
  destruct (decide (a = b)) as [-> | Hne].
  - rewrite Ha in Hb. injection Hb as ->.
    rewrite heavier_at_irrefl in Hh. discriminate.
  - destruct (sorts_descending a b i j Ha Hb) as (wi & wj & Hi & Hj & Hw);
      [lia |].
    unfold heavier_at in Hh. rewrite Hi, Hj in Hh. congruence.
Qed.

(** Every position stands, in the descending order, after all heavier
    positions and before all lighter ones. *)
Lemma rank_bounds (i : nat) :
  (i < length v)%nat ->
  exists a, rev l !! a = Some i
    /\ (length (heavier less v i) <= a)%nat
    /\ (a + length (lighter less v i) < length v)%nat.
Proof.
  intros Hi. apply sorts_elem in Hi.
  apply list_elem_of_lookup in Hi as [a Ha]. exists a.
  split; [exact Ha |].
  assert (Hlen : length (rev l) = length v)
    by (rewrite length_rev; exact sorts_length).
  assert (Ha' : (a < length v)%nat)
    by (rewrite <- Hlen; by eapply lookup_lt_Some).
  split.
  - transitivity (length (take a (rev l))); [| rewrite length_take; lia].
    apply submseteq_length, NoDup_submseteq.
    + apply NoDup_filter, NoDup_seq.
    + intros j Hj. apply list_elem_of_filter in Hj as [Hh Hj].
      apply elem_of_seq in Hj.
      assert (Hin : j ∈ rev l) by (apply sorts_elem; lia).
      apply list_elem_of_lookup in Hin as [b Hb].
      apply elem_of_take. exists b. split; [exact Hb |].
      by apply (heavier_at_earlier a b i j).
  - assert (Hle : (length (lighter less v i) <= length (drop (S a) (rev l)))%nat).
    { apply submseteq_length, NoDup_submseteq.
      - apply NoDup_filter, NoDup_seq.
      - intros j Hj. apply list_elem_of_filter in Hj as [Hh Hj].
        apply elem_of_seq in Hj.
        assert (Hin : j ∈ rev l) by (apply sorts_elem; lia).
        apply list_elem_of_lookup in Hin as [b Hb].
        assert (Hab : (a < b)%nat) by (by apply (heavier_at_earlier b a j i)).
        apply list_elem_of_lookup. exists (b - S a)%nat.
        rewrite lookup_drop. replace (S a + (b - S a))%nat with b by lia.
        exact Hb. }
    rewrite length_drop, Hlen in Hle. lia.
Qed.
End RankingFacts.

Lemma top_idx_perm_length {W : Type} (argsort : list W -> list nat) (v : list W) :
  argsort v ≡ₚ seq 0 (length v) ->
  length (top_idx argsort v) = min 5 (length v).
Proof.
  intros Hp. unfold top_idx.
  by rewrite length_take, length_rev, Hp, length_seq.
Qed.

Lemma top_idx_perm_NoDup {W : Type} (argsort : list W -> list nat) (v : list W) :
  argsort v ≡ₚ seq 0 (length v) -> NoDup (top_idx argsort v).
Proof.
  intros Hp. unfold top_idx.
  apply (sublist_NoDup _ (rev (argsort v))); [| apply sublist_take].
  rewrite rev_Permutation, Hp. apply NoDup_seq.
Qed.

Lemma top_idx_below {W : Type} (argsort : list W -> list nat) (v : list W) :
  argsort v ≡ₚ seq 0 (length v) ->
  Forall (fun i => (i < length v)%nat) (top_idx argsort v).
Proof.
  intros Hp. unfold top_idx. rewrite Forall_forall. intros i Hi.
  apply elem_of_take in Hi as (a & Ha & _).
  apply list_elem_of_lookup_2 in Ha.
  rewrite rev_Permutation, Hp in Ha. apply elem_of_seq in Ha. lia.
Qed.

Lemma fancy_index_Ok {A : Type} (a : list A) (idx : list nat) :
  Forall (fun i => is_Some (a !! i)) idx ->
  exists r, fancy_index a idx = Ok r
            /\ Forall2 (fun i x => a !! i = Some x) idx r.
Proof.
  induction 1 as [| i idx [x Hx] _ (r & Hr & IH)]; simpl.
  - exists []. split; [reflexivity | constructor].
  - rewrite Hx, Hr. simpl. exists (x :: r). split; [reflexivity |].
    by constructor.
Qed.

Lemma combine_Forall2 {A B : Type} (P : nat -> A -> Prop) (Q : nat -> B -> Prop)
  (idx : list nat) (xs : list A) (ys : list B) :
  Forall2 P idx xs -> Forall2 Q idx ys ->
  Forall2 (fun i row => P i (fst row) /\ Q i (snd row)) idx (combine xs ys).
Proof.
  intros HP. revert ys. induction HP as [| i x idx xs Hx _ IH]; intros ys HQ.
  - constructor.
  - inversion HQ as [| i' y idx' ys' Hy HQ']; subst. simpl.
    constructor; [by split | by apply IH].
Qed.

(** The chart pairs each ranked position with its column label and its
    weight as the model gives it. *)
Lemma fi_df_rows {Artifact W : Type}
  (feature_importances_ : Artifact -> result (list W))
  (argsort : list W -> list nat) (model : Artifact) (df : DataFrame)
  (v : list W) :
  feature_importances_ model = Ok v ->
  argsort v ≡ₚ seq 0 (length v) ->
  length (columns df) = length v ->
  exists chart,
    fi_df feature_importances_ argsort model df = Ok chart
    /\ Forall2 (fun i row => columns df !! i = Some (fst row)
                             /\ v !! i = Some (snd row))
               (top_idx argsort v) chart.
Proof.
  intros Hv Hp Hlen.
  assert (Hidx := top_idx_below argsort v Hp).
  destruct (fancy_index_Ok (columns df) (top_idx argsort v)) as (names & En & Hn).
  { eapply Forall_impl; [exact Hidx |]. simpl. intros i Hi.
    apply lookup_lt_is_Some. lia. }
  destruct (fancy_index_Ok v (top_idx argsort v)) as (weights & Ew & Hw).
  { eapply Forall_impl; [exact Hidx |]. simpl. intros i Hi.
    by apply lookup_lt_is_Some. }
  exists (combine names weights). split.
  - unfold fi_df. rewrite Hv. simpl. rewrite En. simpl. rewrite Ew. reflexivity.
  - exact (combine_Forall2 (fun i x => columns df !! i = Some x)
             (fun i w => v !! i = Some w) _ _ _ Hn Hw).
Qed.

(** A list of ten positions given in full meets the contract when it is a
    permutation and each of its positions is at least as heavy as the one
    before. *)
Ltac by_position a n :=
  match n with
  | O => idtac
  | S ?m =>
      destruct a as [| a];
      [| simpl in *; try discriminate; by_position a m]
  end.

Ltac sorts_by_cases :=
  split;
  [ apply (bool_decide_unpack _); vm_compute; exact I
  | let a := fresh "a" in let b := fresh "b" in
    let Ha := fresh in let Hb := fresh in let Hab := fresh in
    let Hi := fresh in let Hj := fresh in
    intros a b ? ? ? ? Ha Hb Hab Hi Hj;
    by_position a 10%nat; by_position b 10%nat; try lia;
    simpl in *;
    injection Ha as <-; injection Hb as <-;
    injection Hi as <-; injection Hj as <-;
    vm_compute; reflexivity ].

(** On the specification's array every order that [np.argsort] may return
    starts, once reversed, with 1, 5, 3, 0, goes on with 2 and 4 in either
    order and ends with the four zero weights. *)
Lemma spec_array_order (np_argsort : list float -> list nat) :
  let importances :=
    [0.1; 0.5; 0.05; 0.2; 0.05; 0.3; 0.0; 0.0; 0.0; 0.0]%float in
  sorts float_less importances (np_argsort importances) ->
  exists t5 t6 zeros,
    rev (np_argsort importances) = ([1; 5; 3; 0; t5; t6]%nat ++ zeros)%list
    /\ top_idx np_argsort importances = [1; 5; 3; 0; t5]%nat
    /\ [t5; t6] ≡ₚ [2; 4]%nat
    /\ zeros ≡ₚ [6; 7; 8; 9]%nat.
Proof.
  intros imp Hs.
  assert (Hirr : Forall (fun w => float_less w w = false) imp)
    by (repeat constructor).
  pose proof (rank_bounds float_less imp _ Hs Hirr) as Hrank.
  assert (Hperm : rev (np_argsort imp) ≡ₚ seq 0 10)
    by (rewrite rev_Permutation; exact (proj1 Hs)).
  assert (Hlen : length (rev (np_argsort imp)) = 10%nat)
    by (by rewrite Hperm).
  unfold top_idx.
  destruct (Hrank 1%nat) as (a1 & E1 & L1 & U1); [simpl; lia |].
  destruct (Hrank 5%nat) as (a5 & E5 & L5 & U5); [simpl; lia |].
  destruct (Hrank 3%nat) as (a3 & E3 & L3 & U3); [simpl; lia |].
  destruct (Hrank 0%nat) as (a0 & E0 & L0 & U0); [simpl; lia |].
  destruct (Hrank 2%nat) as (a2 & E2 & L2 & U2); [simpl; lia |].
  destruct (Hrank 4%nat) as (a4 & E4 & L4 & U4); [simpl; lia |].
  replace (length (heavier float_less imp 1)) with 0%nat in L1 by (vm_compute; reflexivity).
  replace (length (lighter float_less imp 1)) with 9%nat in U1 by (vm_compute; reflexivity).
  replace (length (heavier float_less imp 5)) with 1%nat in L5 by (vm_compute; reflexivity).
  replace (length (lighter float_less imp 5)) with 8%nat in U5 by (vm_compute; reflexivity).
  replace (length (heavier float_less imp 3)) with 2%nat in L3 by (vm_compute; reflexivity).
  replace (length (lighter float_less imp 3)) with 7%nat in U3 by (vm_compute; reflexivity).
  replace (length (heavier float_less imp 0)) with 3%nat in L0 by (vm_compute; reflexivity).
  replace (length (lighter float_less imp 0)) with 6%nat in U0 by (vm_compute; reflexivity).
  replace (length (heavier float_less imp 2)) with 4%nat in L2 by (vm_compute; reflexivity).
  replace (length (lighter float_less imp 2)) with 4%nat in U2 by (vm_compute; reflexivity).
  replace (length (heavier float_less imp 4)) with 4%nat in L4 by (vm_compute; reflexivity).
  replace (length (lighter float_less imp 4)) with 4%nat in U4 by (vm_compute; reflexivity).
  replace (length imp) with 10%nat in * by reflexivity.
  assert (a1 = 0%nat) as -> by lia. assert (a5 = 1%nat) as -> by lia.
  assert (a3 = 2%nat) as -> by lia. assert (a0 = 3%nat) as -> by lia.
  destruct (rev (np_argsort imp))
    as [| r0 [| r1 [| r2 [| r3 [| r4 [| r5 zeros]]]]]]; try discriminate.
  simpl in E1, E5, E3, E0.
  injection E1 as ->. injection E5 as ->. injection E3 as ->. injection E0 as ->.
  exists r4, r5, zeros.
  split; [reflexivity |]. split; [reflexivity |].
  assert (H24 : [r4; r5] ≡ₚ [2; 4]%nat).
  { assert (a2 = 4 \/ a2 = 5)%nat as [-> | ->] by lia;
      (assert (a4 = 4 \/ a4 = 5)%nat as [-> | ->] by lia);
      simpl in E2, E4; try congruence.
    - injection E2 as ->. injection E4 as ->. reflexivity.
    - injection E2 as ->. injection E4 as ->. apply Permutation_swap. }
  split; [exact H24 |].
  apply (Permutation_app_inv_l [1; 5; 3; 0; 2; 4]%nat).
  transitivity ([1; 5; 3; 0]%nat ++ [r4; r5] ++ zeros)%list.
  - by rewrite H24.
  - simpl. rewrite Hperm. apply (bool_decide_unpack _). vm_compute. exact I.
Qed.

(** C4 (as the code has it): for every array of 10 importance weights and
    every result [np.argsort] may return on it, the positions shown when
    the display is enabled are 5 different positions, no one lighter than a
    later one and no one lighter than a position left out: each shown
    position has fewer than 5 positions heavier than it, each position left
    out fewer than 5 lighter.  In the whole descending order every position
    stands after all heavier positions and before all lighter ones; where
    equal weights stand among themselves is not determined.  The chart
    pairs each shown position with its column label and its weight
    unchanged.  For the array
    [0.1, 0.5, 0.05, 0.2, 0.05, 0.3, 0.0, 0.0, 0.0, 0.0] the descending
    order starts 1, 5, 3, 0, goes on with positions 2 and 4 in one order or
    the other, the first of which is the fifth position shown, and ends
    with positions 6, 7, 8, 9 in some order. *)
Theorem C4_top5_by_weight {W : Type} (less : W -> W -> bool)
  (argsort : list W -> list nat) (v : list W) :
  sorts less v (argsort v) ->
  Forall (fun w => less w w = false) v ->
  length v = 10%nat ->
  length (top_idx argsort v) = 5%nat
  /\ NoDup (top_idx argsort v)
  /\ ranked (weight_before less v) 10 (top_idx argsort v)
  /\ (forall i, i ∈ top_idx argsort v ->
        (length (heavier less v i) < 5)%nat)
  /\ (forall k, (k < 10)%nat -> k ∉ top_idx argsort v ->
        (length (lighter less v k) < 5)%nat)
  /\ rev (argsort v) ≡ₚ seq 0 10
  /\ (forall i, (i < 10)%nat ->
        exists a, rev (argsort v) !! a = Some i
          /\ (length (heavier less v i) <= a)%nat
          /\ (a + length (lighter less v i) < 10)%nat)
  /\ (forall (Artifact : Type) (feature_importances_ : Artifact -> result (list W))
             (model : Artifact) (df : DataFrame),
        feature_importances_ model = Ok v ->
        columns df = columns_order ->
        exists chart,
          fi_df feature_importances_ argsort model df = Ok chart
          /\ Forall2 (fun i row => columns_order !! i = Some (fst row)
                                   /\ v !! i = Some (snd row))
                     (top_idx argsort v) chart)
  /\ (forall np_argsort : list float -> list nat,
        let importances :=
          [0.1; 0.5; 0.05; 0.2; 0.05; 0.3; 0.0; 0.0; 0.0; 0.0]%float in
        sorts float_less importances (np_argsort importances) ->
        exists t5 t6 zeros,
          rev (np_argsort importances) = ([1; 5; 3; 0; t5; t6]%nat ++ zeros)%list
          /\ top_idx np_argsort importances = [1; 5; 3; 0; t5]%nat
          /\ [t5; t6] ≡ₚ [2; 4]%nat
          /\ zeros ≡ₚ [6; 7; 8; 9]%nat).
Proof.
  intros Hs Hirr Hlen.
  assert (Hp : argsort v ≡ₚ seq 0 (length v)) by exact (proj1 Hs).
  assert (Hrank := rank_bounds less v _ Hs Hirr).
  assert (Hnd := sorts_NoDup less v _ Hs).
  rewrite Hlen in Hrank.
  split; [by rewrite top_idx_perm_length, Hlen |].
  split; [by apply top_idx_perm_NoDup |].
  split; [rewrite <- Hlen; by apply take_ranked |].
  split.
  { intros i Hi. unfold top_idx in Hi.
    apply elem_of_take in Hi as (a & Ha & Ha5).
    assert (Hi : (i < 10)%nat).
    { rewrite <- Hlen. apply (sorts_elem less v _ Hs).
      by eapply list_elem_of_lookup_2. }
    destruct (Hrank i Hi) as (a' & Ha' & Hh & _).
    rewrite (NoDup_lookup _ _ _ _ Hnd Ha' Ha) in Hh. lia. }
  split.
  { intros k Hk Hnot.
    destruct (Hrank k Hk) as (a & Ha & _ & Hl).
    destruct (decide (a < 5)%nat) as [Ha5 | Ha5]; [| lia].
    exfalso. apply Hnot. unfold top_idx. apply elem_of_take. eauto. }
  split; [rewrite rev_Permutation, Hp, Hlen; reflexivity |].
  split; [exact Hrank |].
  split.
  { intros Artifact fi model df Hv Hcols. rewrite <- Hcols.
    apply fi_df_rows; [exact Hv | exact Hp |]. rewrite Hcols, Hlen. reflexivity. }
  exact spec_array_order.
Qed.

Lemma C4_top5_by_weight_witness :
  let v := [3; 7; 0; 7; 1; 0; 0; 2; 9; 4]%Z in
  let argsort : list Z -> list nat :=
    fun _ => [5; 2; 6; 4; 7; 0; 9; 3; 1; 8]%nat in
  top_idx argsort v = [8; 1; 3; 9; 0]%nat
  /\ ranked (weight_before Z.ltb v) 10 (top_idx argsort v).
Proof.
  intros v argsort. split; [reflexivity |].
  refine (proj1 (proj2 (proj2 (C4_top5_by_weight Z.ltb argsort v _ _ _)))).
  - sorts_by_cases.
  - repeat constructor.
  - reflexivity.
Defined.

(** C4 (as the specification words it) fails on the specification's own
    array.  Two of the orders [np.argsort] may return on it, a stable one
    and one that is not, both show position 4 and leave out position 2, of
    the same weight 0.05; in neither do the four 0.0 entries come in their
    original order 6, 7, 8, 9. *)
Lemma C4_tie_order_not_fixed :
  let v := [0.1; 0.5; 0.05; 0.2; 0.05; 0.3; 0.0; 0.0; 0.0; 0.0]%float in
  let unstable : list float -> list nat :=
    fun _ => [6; 7; 9; 8; 2; 4; 0; 3; 5; 1]%nat in
  let stable : list float -> list nat :=
    fun _ => [6; 7; 8; 9; 2; 4; 0; 3; 5; 1]%nat in
  (sorts float_less v (unstable v)
   /\ top_idx unstable v = [1; 5; 3; 0; 4]%nat
   /\ rev (unstable v) = [1; 5; 3; 0; 4; 2; 8; 9; 7; 6]%nat
   /\ ~ ranked (spec_before float_less v) 10 (top_idx unstable v)
   /\ ~ ranked (spec_before float_less v) 10 (rev (unstable v)))
  /\ (sorts float_less v (stable v)
      /\ top_idx stable v = [1; 5; 3; 0; 4]%nat
      /\ rev (stable v) = [1; 5; 3; 0; 4; 2; 9; 8; 7; 6]%nat
      /\ ~ ranked (spec_before float_less v) 10 (top_idx stable v)
      /\ ~ ranked (spec_before float_less v) 10 (rev (stable v))).
Proof.
  intros v unstable stable.
  assert (Htop : ~ ranked (spec_before float_less v) 10 [1; 5; 3; 0; 4]%nat).
  { intros [_ H].
    destruct (H 4%nat 2%nat) as (wi & wj & Hi & Hj & Hw).
    + rewrite !elem_of_cons. lia.
    + lia.
    + rewrite !elem_of_cons, elem_of_nil. lia.
    + injection Hi as <-. injection Hj as <-.
      destruct Hw as [Hw | (_ & _ & Hw)]; [vm_compute in Hw; discriminate | lia]. }
  split.
  - split; [sorts_by_cases |].
    split; [reflexivity |]. split; [reflexivity |].
    split; [exact Htop |].
    intros [H _].
    destruct (H 4%nat 5%nat 4%nat 2%nat) as (wi & wj & Hi & Hj & Hw);
      [reflexivity | reflexivity | lia |].
    injection Hi as <-. injection Hj as <-.
    destruct Hw as [Hw | (_ & _ & Hw)]; [vm_compute in Hw; discriminate | lia].
  - split; [sorts_by_cases |].
    split; [reflexivity |]. split; [reflexivity |].
    split; [exact Htop |].
    intros [H _].
    destruct (H 6%nat 7%nat 9%nat 8%nat) as (wi & wj & Hi & Hj & Hw);
      [reflexivity | reflexivity | lia |].
    injection Hi as <-. injection Hj as <-.
    destruct Hw as [Hw | (_ & _ & Hw)]; [vm_compute in Hw; discriminate | lia].
Qed.

(** ** The whole run *)

Section ScriptFacts.
Context {Artifact W : Type}.
Variable joblib_load : string -> result Artifact.
Variable transform : Artifact -> DataFrame -> result (list (list float)).
Variable predict : Artifact -> DataFrame -> result (list float).
Variable feature_importances_ : Artifact -> result (list W).
Variable argsort : list W -> list nat.

Abbreviation the_run := (run joblib_load transform predict feature_importances_ argsort).
Abbreviation the_price := (predicted_price transform predict).
Abbreviation the_chart := (fi_df feature_importances_ argsort).
Abbreviation the_load := (load_model joblib_load).

(** A run, statement by statement. *)
Lemma run_cases (checked : bool) (ss : gmap string value) :
  the_run checked ss =
    match the_load with
    | Err e => (Err e, {| session_state := ss; page := [] |})
    | Ok (model, scaler) =>
        let heading := [ Title "Airbnb Price Predictor";
                      Markdown "Enter listing details below to predict the nightly price." ] in
        match sidebar ss with
        | (Err e, ss') => (Err e, {| session_state := ss'; page := heading |})
        | (Ok fs, ss') =>
            match input_df fs with
            | Err e => (Err e, {| session_state := ss'; page := heading |})
            | Ok df =>
                match the_price model scaler df with
                | Err e => (Err e, {| session_state := ss'; page := heading |})
                | Ok price =>
                    let priced :=
                      (heading ++ [ Subheader "Predicted Nightly Price";
                                    WritePrice price;
                                    Checkbox "Show top 5 feature importances"
                                             checked ])%list in
                    let mapped (charted : list (display W)) :=
                      match folium_Map (latitude fs) (longitude fs) with
                      | Err e =>
                          (Err e,
                           {| session_state := ss';
                              page := (charted
                                       ++ [ Subheader "Selected Listing on Map" ])%list |})
                      | Ok m =>
                          (Ok (df, price),
                           {| session_state := ss';
                              page := (charted
                                       ++ [ Subheader "Selected Listing on Map";
                                            FoliumMap (fst m) (snd m) ])%list |})
                      end in
                    if checked then
                      match the_chart model df with
                      | Err e =>
                          (Err e, {| session_state := ss'; page := priced |})
                      | Ok chart => mapped (priced ++ [BarChart chart])%list
                      end
                    else mapped priced
                end
            end
        end
    end.
Proof.
  unfold run, script, bind, lift, show, in_session, ret. simpl.
  destruct the_load as [[model scaler] | e]; [| reflexivity]. simpl.
  destruct (sidebar ss) as [[fs | e] ss']; [| reflexivity].
  destruct (input_df fs) as [df | e]; [| reflexivity].
  destruct (the_price model scaler df) as [price | e]; [| reflexivity]. simpl.
  destruct checked;
    [destruct (the_chart model df) as [chart | e]; [| reflexivity] |];
    simpl; destruct (folium_Map (latitude fs) (longitude fs)); reflexivity.
Qed.

Lemma predicted_price_Ok (model scaler : Artifact) (df : DataFrame) (p : float) :
  the_price model scaler df = Ok p <->
  exists X_scaled X_scaled_df prediction,
    transform scaler df = Ok X_scaled
    /\ DataFrame_of_array X_scaled columns_order = Ok X_scaled_df
    /\ predict model X_scaled_df = Ok prediction
    /\ prediction !! 0%nat = Some p.
Proof.
  unfold predicted_price, rbind. split.
  - destruct (transform scaler df) as [X |] eqn:Et; [| discriminate].
    destruct (DataFrame_of_array X columns_order) as [Xdf |] eqn:Ed;
      [| discriminate].
    destruct (predict model Xdf) as [pr |] eqn:Ep; [| discriminate].
    destruct (pr !! 0%nat) as [q |] eqn:E; [| discriminate].
    intros [= ->]. exists X, Xdf, pr. auto.
  - intros (X & Xdf & pr & -> & -> & -> & ->). reflexivity.
Qed.

Lemma artifact_failure_raises (df : DataFrame) (e : exn) :
  artifact_failure joblib_load transform predict df e ->
  the_load = Err e
  \/ exists model scaler,
       the_load = Ok (model, scaler) /\ the_price model scaler df = Err e.
Proof.
  intros H; destruct H as
    [ e Hm | model e Hm Hs | model scaler e Hl Ht | model scaler X e Hl Ht Hd
    | model scaler X Xdf e Hl Ht Hd Hp | model scaler X Xdf Hl Ht Hd Hp ].
  - left. unfold load_model. by rewrite Hm.
  - left. unfold load_model. by rewrite Hm, Hs.
  - right. exists model, scaler. split; [done |].
    unfold predicted_price. by rewrite Ht.
  - right. exists model, scaler. split; [done |].
    unfold predicted_price. rewrite Ht. simpl. by rewrite Hd.
  - right. exists model, scaler. split; [done |].
    unfold predicted_price. rewrite Ht. simpl. rewrite Hd. simpl. by rewrite Hp.
  - right. exists model, scaler. split; [done |].
    unfold predicted_price. rewrite Ht. simpl. rewrite Hd. simpl. by rewrite Hp.
Qed.

Ltac page_entries :=
  simpl; rewrite ?elem_of_cons, ?elem_of_nil;
  intuition (try discriminate; try congruence).

(** C8 (as the code has it): when the model or the scaler pickle does not
    load, or the scaler or the model rejects the feature row it is given,
    or the scaled array has not one cell per column, or the prediction is
    empty, the run raises that very exception and shows no price; and
    whenever a run shows a price, both artifacts were loaded and the price
    is the first entry of what the model predicted for the scaled feature
    row: nothing is put in its place. *)
Theorem C8_artifact_failures_propagate (checked : bool)
  (ss : gmap string value) (fs : FormState) (df : DataFrame) (e : exn) :
  fst (sidebar ss) = Ok fs ->
  input_df fs = Ok df ->
  artifact_failure joblib_load transform predict df e ->
  fst (the_run checked ss) = Err e
  /\ (forall p, WritePrice p ∉ page (snd (the_run checked ss)))
  /\ (forall checked' ss' p,
        WritePrice p ∈ page (snd (the_run checked' ss')) ->
        exists model scaler fs' df' X_scaled X_scaled_df prediction,
          the_load = Ok (model, scaler)
          /\ fst (sidebar ss') = Ok fs'
          /\ input_df fs' = Ok df'
          /\ transform scaler df' = Ok X_scaled
          /\ DataFrame_of_array X_scaled columns_order = Ok X_scaled_df
          /\ predict model X_scaled_df = Ok prediction
          /\ prediction !! 0%nat = Some p).
Proof.
  intros Hfs Hdf Hfail.
  split; [| split].
  - rewrite run_cases.
    destruct (artifact_failure_raises df e Hfail)
      as [-> | (model & scaler & -> & Hp)]; [reflexivity |].
    destruct (sidebar ss) as [r ss1]. simpl in Hfs. subst r.
    rewrite Hdf, Hp. reflexivity.
  - intros p. rewrite run_cases.
    destruct (artifact_failure_raises df e Hfail)
      as [-> | (model & scaler & -> & Hp)]; [page_entries |].
    destruct (sidebar ss) as [r ss1]. simpl in Hfs. subst r.
    rewrite Hdf, Hp. page_entries.
  - intros checked' ss' p. rewrite run_cases.
    destruct the_load as [[model scaler] | e0]; [| page_entries].
    destruct (sidebar ss') as [[fs' | e0] ss1]; [| page_entries].
    destruct (input_df fs') as [df' | e0] eqn:Edf; [| page_entries].
    destruct (the_price model scaler df') as [price | e0] eqn:Ep; [| page_entries].
    intros Hin.
    assert (price = p) as ->.
    { destruct checked'; [destruct (the_chart model df') |];
        cbv zeta in Hin;
        try destruct (folium_Map (latitude fs') (longitude fs'));
        revert Hin; page_entries. }
    apply predicted_price_Ok in Ep as (X & Xdf & pr & ? & ? & ? & ?).
    exists model, scaler, fs', df', X, Xdf, pr. auto 10.
Qed.

(** C10: the run with the checkbox ticked and the run with it clear end
    in the same session state and show the same price; a run that completes
    ticked completes clear with the same feature row and price; and a run
    that completes clear either completes ticked with the same feature row
    and price, or stops in the chart after having shown that price. *)
Theorem C10_toggle_does_not_interfere (ss : gmap string value) :
  session_state (snd (the_run true ss)) = session_state (snd (the_run false ss))
  /\ (forall p, WritePrice p ∈ page (snd (the_run true ss))
                <-> WritePrice p ∈ page (snd (the_run false ss)))
  /\ (forall r, fst (the_run true ss) = Ok r -> fst (the_run false ss) = Ok r)
  /\ (forall df p,
        fst (the_run false ss) = Ok (df, p) ->
        fst (the_run true ss) = Ok (df, p)
        \/ exists model scaler e,
             the_load = Ok (model, scaler)
             /\ the_chart model df = Err e
             /\ fst (the_run true ss) = Err e
             /\ WritePrice p ∈ page (snd (the_run true ss))).
Proof.
  rewrite !run_cases.
  destruct the_load as [[model scaler] | e0];
    [| repeat split; intros; simpl in *; try tauto; discriminate].
  destruct (sidebar ss) as [[fs | e0] ss1];
    [| repeat split; intros; simpl in *; try tauto; discriminate].
  destruct (input_df fs) as [df | e0];
    [| repeat split; intros; simpl in *; try tauto; discriminate].
  destruct (the_price model scaler df) as [price | e0];
    [| repeat split; intros; simpl in *; try tauto; discriminate].
  cbv zeta.
  destruct (the_chart model df) as [chart | e0] eqn:Ec;
    destruct (folium_Map (latitude fs) (longitude fs)) as [m | e1].
  - split; [reflexivity |]. split; [intros p; page_entries |].
    split; [auto |]. intros df' p [= <- <-]. by left.
  - split; [reflexivity |]. split; [intros p; page_entries |].
    split; [auto |]. discriminate.
  - split; [reflexivity |]. split; [intros p; page_entries |].
    split; [discriminate |]. intros df' p [= <- <-]. right.
    exists model, scaler, e0. repeat split; try done. page_entries.
  - split; [reflexivity |]. split; [intros p; page_entries |].
    split; [discriminate |]. discriminate.
Qed.
End ScriptFacts.

Lemma C8_artifact_failures_propagate_witness :
  let joblib_load := fun _ : string => Ok tt in
  let transform := fun (_ : unit) (_ : DataFrame) =>
    Ok [ [0.5; 0.5; 0; 0; 0.1; 0; 0; 0.5; 0]%float ] in
  let predict := fun (_ : unit) (_ : DataFrame) => Ok [100.0%float] in
  let feature_importances_ := fun _ : unit => Ok [3; 7; 0; 7; 1; 0; 0; 2; 9; 4]%Z in
  fst (run joblib_load transform predict feature_importances_
           (fun _ => [5; 2; 6; 4; 7; 0; 9; 3; 1; 8]%nat) true ∅)
    = Err ValueError.
Proof.
  intros joblib_load transform predict feature_importances_.
  set (fs := {| city := "Paris"; latitude := 48.8566; longitude := 2.3522;
                room_type := "Entire home/apt"; minimum_nights := 1;
                number_of_reviews := 50; reviews_per_month := 0.0;
                calculated_host_listings_count := 1; availability_365 := 200;
                number_of_reviews_ltm := 0 |}).
  refine (proj1 (C8_artifact_failures_propagate joblib_load transform predict
                   feature_importances_
                   (fun _ => [5; 2; 6; 4; 7; 0; 9; 3; 1; 8]%nat) true ∅ fs
                   (DataFrame_of_records
                      [ [ ("latitude", VFloat 48.8566); ("longitude", VFloat 2.3522);
                          ("room_type", VInt 0); ("minimum_nights", VInt 1);
                          ("number_of_reviews", VInt 50);
                          ("reviews_per_month", VFloat 0.0);
                          ("calculated_host_listings_count", VInt 1);
                          ("availability_365", VInt 200);
                          ("number_of_reviews_ltm", VInt 0); ("city", VInt 0) ] ]
                      columns_order)
                   ValueError _ _ _)).
  - vm_compute. reflexivity.
  - vm_compute. reflexivity.
  - eapply (scaled_shape _ _ _ _ tt tt); reflexivity.
Defined.

(** C8 (as the specification words it) fails for an artifact that does
    not fit the order of the feature row: with a model fitted on the same
    ten columns in the reverse order, the run raises nothing and shows a
    price. *)
Lemma C8_order_mismatch_is_silent :
  let model := {| feature_names_in_ := rev columns_order |} in
  let scaler := {| feature_names_in_ := columns_order |} in
  let joblib_load := fun path : string =>
    if String.eqb path "lightgbm_airbnb_model.pkl" then Ok model else Ok scaler in
  let r := run joblib_load width_only_transform width_only_predict
               (fun _ : estimator => Ok ([] : list Z)) (fun _ => []) false ∅ in
  feature_names_in_ model ≠ columns_order
  /\ feature_names_in_ model ≡ₚ columns_order
  /\ (exists df, fst r = Ok (df, 48.8566%float))
  /\ WritePrice 48.8566%float ∈ page (snd r).
Proof.
  intros model scaler joblib_load r.
  split; [discriminate |].
  split; [apply Permutation_sym, Permutation_rev |].
  split; [eexists; vm_compute; reflexivity |].
  apply list_elem_of_lookup. exists 3%nat. vm_compute. reflexivity.
Qed.

(** * Further properties of the script *)

(** ** The form state controller along a session *)

Lemma apply_event_settled (c : string) (e : event) (ss : gmap string value) :
  settled c ss -> settled c (apply_event e ss).
Proof.
  intros (Hlast & [x Hx] & [y Hy]). unfold settled.
  destruct e as [| c0 | x0 | y0]; simpl; simplify_map_eq; eauto.
Qed.

(** In a state settled on the selected city, a run after an interaction
    that leaves the selection where it is (a re-run, an edit of either
    coordinate, choosing the same city again) keeps each coordinate as the
    interaction left it: the edited one at its new value, the other one as
    it was; the state stays settled. *)
Theorem settled_run_keeps_coordinates (c : string) (e : event)
  (ss : gmap string value) :
  selected_city ss = Ok c ->
  settled c ss ->
  selected_city (apply_event e ss) = Ok c ->
  render e ss !! "latitude_input"
    = match e with
      | EditLatitude x => Some (VFloat x)
      | _ => ss !! "latitude_input"
      end
  /\ render e ss !! "longitude_input"
     = match e with
       | EditLongitude y => Some (VFloat y)
       | _ => ss !! "longitude_input"
       end
  /\ settled c (render e ss).
Proof.
  intros Hsel Hset Hsel'.
  assert (Hset' := apply_event_settled c e ss Hset).
  unfold render, settled.
  rewrite !(sidebar_keep c) by auto.
  split; [| split; [| exact Hset']].
  - destruct e; simpl; by simplify_map_eq.
  - destruct e; simpl; by simplify_map_eq.
Qed.

Lemma settled_run_keeps_coordinates_witness :
  let ss := render (SelectCity "Prague") ∅ in
  render (EditLongitude 14.5) ss !! "longitude_input" = Some (VFloat 14.5)
  /\ render (EditLongitude 14.5) ss !! "latitude_input" = Some (VFloat 50.0755).
Proof.
  intros ss.
  destruct (settled_run_keeps_coordinates "Prague" (EditLongitude 14.5) ss)
    as (Hlat & Hlon & _).
  - vm_compute. reflexivity.
  - repeat split; vm_compute; eauto.
  - vm_compute. reflexivity.
  - split; [exact Hlon |]. rewrite Hlat. vm_compute. reflexivity.
Defined.

Lemma at_defaults_run (e : event) (ss : gmap string value) :
  offered e -> unedited e ->
  at_defaults ss ->
  at_defaults (render e ss).
Proof.
  intros He Hu (c & lat & lon & Hsel & Hc & Hlast & Hlat & Hlon).
  assert (Hin : c ∈ dict_keys city_coords) by (apply dict_get_keys; eauto).
  destruct (render_offered e c ss He Hin Hsel) as (c' & Hin' & Hsel').
  apply dict_get_keys in Hin' as [[lat' lon'] Hc'].
  assert (Hl : apply_event e ss !! "last_city" = Some (VStr c))
    by (destruct e; simpl; by simplify_map_eq).
  unfold render.
  destruct (decide (c' = c)) as [-> | Hne].
  - exists c, lat, lon.
    assert (Hset : settled c (apply_event e ss))
      by (apply apply_event_settled; unfold settled; eauto).
    split; [by apply sidebar_selected |]. split; [exact Hc |].
    rewrite !(sidebar_keep c) by auto.
    split; [exact Hl |].
    destruct e; simpl in *; try done; by simplify_map_eq.
  - exists c', lat', lon'.
    split; [by apply sidebar_selected |]. split; [exact Hc' |].
    destruct (sidebar_reset c' lat' lon' (apply_event e ss) Hc' Hsel')
      as (H1 & H2 & H3); [| by auto].
    right; right. rewrite Hl. congruence.
Qed.

(** The first run of a session puts the coordinates at the defaults of
    the selected city. *)
Lemma at_defaults_first_run (e : event) :
  offered e -> at_defaults (render e ∅).
Proof.
  intros He.
  assert (Hp : "Paris" ∈ dict_keys city_coords)
    by (apply dict_get_keys; vm_compute; eauto).
  assert (Hs : selected_city ∅ = Ok "Paris") by reflexivity.
  destruct (render_offered e "Paris" ∅ He Hp Hs) as (c & Hin & Hsel).
  apply dict_get_keys in Hin as [[lat lon] Hc].
  exists c, lat, lon. unfold render.
  split; [by apply sidebar_selected |]. split; [exact Hc |].
  destruct (sidebar_reset c lat lon (apply_event e ∅) Hc Hsel)
    as (H1 & H2 & H3); [| by auto].
  right; right. destruct e; simpl; by simplify_map_eq.
Qed.

(** Along a session that starts with nothing stored and in which no
    coordinate is ever edited by hand, after every run both coordinates
    are the stored defaults of the city then selected, and the remembered
    city is that city. *)
Theorem unedited_session_at_defaults (es : list event) (e : event) :
  Forall offered (es ++ [e]) ->
  Forall unedited (es ++ [e]) ->
  at_defaults (renders (es ++ [e]) ∅).
Proof.
  revert e. induction es as [| e0 es IH] using rev_ind; intros e Ho Hu.
  - apply Forall_cons in Ho as [Ho _]. simpl. by apply at_defaults_first_run.
  - apply Forall_app in Ho as [Ho Ho']. apply Forall_cons in Ho' as [Ho' _].
    apply Forall_app in Hu as [Hu Hu']. apply Forall_cons in Hu' as [Hu' _].
    rewrite renders_snoc. apply at_defaults_run; auto.
Qed.

Lemma unedited_session_at_defaults_witness :
  at_defaults (renders ([Rerun; SelectCity "Oslo"] ++ [SelectCity "Rome"]) ∅).
Proof.
  apply unedited_session_at_defaults.
  - repeat constructor; apply dict_get_keys; vm_compute; eauto.
  - repeat constructor.
Defined.

(** The coordinates and the remembered city a run ends with depend on
    four entries of the session state only: the selection, the two
    coordinates and the remembered city.  Whatever else differs between two
    states (a slider moved, another room type chosen), the runs from them
    end with the same latitude, longitude and remembered city. *)
Theorem coordinates_ignore_other_widgets (k : string)
  (ss ss' : gmap string value) :
  ss' !! "city_input" = ss !! "city_input" ->
  ss' !! "latitude_input" = ss !! "latitude_input" ->
  ss' !! "longitude_input" = ss !! "longitude_input" ->
  ss' !! "last_city" = ss !! "last_city" ->
  k = "latitude_input" \/ k = "longitude_input" \/ k = "last_city" ->
  snd (sidebar ss') !! k = snd (sidebar ss) !! k.
Proof.
  intros Hc Hlat Hlon Hlast Hk.
  assert (Hsel := selected_city_agree ss ss' Hc).
  destruct (selected_city ss) as [c | e0] eqn:E.
  - rewrite !(sidebar_state c) by auto.
    by apply update_coords_agree.
  - assert (Hstop : forall s, selected_city s = Err e0 ->
                             snd (sidebar s) !! k = s !! k).
    { intros s Hs. unfold selected_city in Hs. unfold sidebar, bind at 1.
      destruct (selectbox _ _ s) as [[c | e1] s0] eqn:Es; [discriminate |].
      simpl. unfold selectbox in Es.
      destruct (s !! "city_input") as [[] |]; simpl in Es; congruence. }
    rewrite !Hstop by done.
    destruct Hk as [-> | [-> | ->]]; done.
Qed.

Lemma coordinates_ignore_other_widgets_witness :
  let ss := render (EditLatitude 41.0) (render (SelectCity "Rome") ∅) in
  snd (sidebar (<["min_nights_input" := VInt 7]> ss)) !! "latitude_input"
    = snd (sidebar ss) !! "latitude_input".
Proof.
  intros ss.
  apply coordinates_ignore_other_widgets; try reflexivity. by left.
Defined.

(** ** What the widgets return and what they write *)

Lemma bind_Ok_inv {S A B : Type} (m : M S A) (f : A -> M S B) (s s2 : S) (b : B) :
  bind m f s = (Ok b, s2) ->
  exists a s1, m s = (Ok a, s1) /\ f a s1 = (Ok b, s2).
Proof.
  unfold bind. destruct (m s) as [[a | e] s1]; [eauto | discriminate].
Qed.

Lemma selectbox_reads (options : list string) (key c : string)
  (s s' : gmap string value) :
  selectbox options key s = (Ok c, s') ->
  c = stored_str (s !! key) (hd c options).
Proof.
  unfold selectbox, stored_str.
  destruct (s !! key) as [[c' | x | n] |]; try discriminate.
  - by intros [= -> _].
  - destruct options; [discriminate |]. by intros [= -> _].
Qed.

Lemma int_input_returns (lo hi d : Z) (key : string) (n : Z)
  (s s' : gmap string value) :
  int_input lo hi d key s = (Ok n, s') ->
  n = stored_int (s !! key) d
  /\ s' !! key = Some (VInt n)
  /\ forall k, key ≠ k -> s' !! k = s !! k.
Proof.
  unfold int_input, stored_int.
  destruct (s !! key) as [[c | x | m] |] eqn:E; try discriminate.
  - intros [= -> <-]. auto.
  - intros [= <- <-]. split; [done |]. split; [apply lookup_insert_eq |].
    intros k Hk. by rewrite lookup_insert_ne.
Qed.

Lemma float_input_returns (d : float) (key : string) (x : float)
  (s s' : gmap string value) :
  float_input d key s = (Ok x, s') ->
  x = stored_float (s !! key) d
  /\ s' !! key = Some (VFloat x)
  /\ forall k, key ≠ k -> s' !! k = s !! k.
Proof.
  unfold float_input, stored_float.
  destruct (s !! key) as [[c | y | m] |] eqn:E; try discriminate.
  - intros [= -> <-]. auto.
  - intros [= <- <-]. split; [done |]. split; [apply lookup_insert_eq |].
    intros k Hk. by rewrite lookup_insert_ne.
Qed.

Lemma coord_input_returns (k : string) (x : float) (s s' : gmap string value) :
  coord_input k s = (Ok x, s') -> s' = s /\ s !! k = Some (VFloat x).
Proof.
  unfold coord_input, bind, session_float, float_input.
  destruct (s !! k) as [[c | y | m] |] eqn:E; try discriminate.
  rewrite E. intros [= -> <-]. auto.
Qed.

(** When lines 49-57 raise nothing, they end settled, whatever the city. *)
Lemma update_coords_returns (c : string) (s s' : gmap string value) :
  update_coords c s = (Ok tt, s') ->
  settled c s'
  /\ forall k, k ≠ "latitude_input" -> k ≠ "longitude_input" ->
               k ≠ "last_city" -> s' !! k = s !! k.
Proof.
  intros E. split.
  - unfold update_coords, auto_update in E.
    destruct (not_in "latitude_input" s || not_in "longitude_input" s
              || get_ne_str s "last_city" c) eqn:Hg.
    + destruct (dict_getitem city_coords c) as [[lat lon] | e]; [| discriminate].
      injection E as <-. unfold settled. simplify_map_eq. eauto.
    + injection E as <-. apply guard_false in Hg as (? & ? & ?). by repeat split.
  - intros k H1 H2 H3.
    rewrite <- (update_coords_lookup_ne c k s H1 H2 H3). by rewrite E.
Qed.

(** A run of the sidebar that returns a form state, step by step: the
    state it ends in shows the form state, and every field other than the
    coordinates is the stored value of its own key, or the widget's default
    when nothing is stored. *)
Lemma sidebar_inv (fs : FormState) (ss ss' : gmap string value) :
  sidebar ss = (Ok fs, ss') ->
  shows fs ss'
  /\ selected_city ss = Ok (city fs)
  /\ room_type fs = stored_str (ss !! "room_type_input") "Entire home/apt"
  /\ minimum_nights fs = stored_int (ss !! "min_nights_input") 1
  /\ number_of_reviews fs = stored_int (ss !! "num_reviews_input") 50
  /\ reviews_per_month fs
     = stored_float (ss !! "reviews_per_month_input") 0.0%float
  /\ calculated_host_listings_count fs
     = stored_int (ss !! "host_listings_count_input") 1
  /\ availability_365 fs = stored_int (ss !! "availability_input") 200
  /\ number_of_reviews_ltm fs = stored_int (ss !! "reviews_ltm_input") 0.
Proof.
  unfold sidebar. intros H.
  apply bind_Ok_inv in H as (c & s0 & E0 & H).
  apply bind_Ok_inv in H as ([] & s1 & E1 & H).
  apply bind_Ok_inv in H as (x & s2 & E2 & H).
  apply bind_Ok_inv in H as (y & s3 & E3 & H).
  apply bind_Ok_inv in H as (rt & s4 & E4 & H).
  apply bind_Ok_inv in H as (mn & s5 & E5 & H).
  apply bind_Ok_inv in H as (nr & s6 & E6 & H).
  apply bind_Ok_inv in H as (rpm & s7 & E7 & H).
  apply bind_Ok_inv in H as (hl & s8 & E8 & H).
  apply bind_Ok_inv in H as (av & s9 & E9 & H).
  apply bind_Ok_inv in H as (ltm & s10 & E10 & H).
  unfold ret in H. injection H as <- <-.
  assert (Hsel : selected_city ss = Ok c) by (unfold selected_city; by rewrite E0).
  destruct (selectbox_returns _ _ _ _ _ E0) as [K0 S0].
  apply update_coords_returns in E1 as [(Klast & _ & _) S1].
  apply coord_input_returns in E2 as [-> Kx].
  apply coord_input_returns in E3 as [-> Ky].
  assert (Rrt := selectbox_reads _ _ _ _ _ E4).
  destruct (selectbox_returns _ _ _ _ _ E4) as [K4 S4].
  apply int_input_returns in E5 as (R5 & K5 & S5).
  apply int_input_returns in E6 as (R6 & K6 & S6).
  apply float_input_returns in E7 as (R7 & K7 & S7).
  apply int_input_returns in E8 as (R8 & K8 & S8).
  apply int_input_returns in E9 as (R9 & K9 & S9).
  apply int_input_returns in E10 as (R10 & K10 & S10).
  simpl.
  split.
  { unfold shows. simpl.
    repeat split;
      repeat match goal with
        | H : forall k, _ ≠ k -> ?s !! k = _ |- ?s !! ?key = _ =>
            rewrite (H key) by discriminate
        | H : forall k, k ≠ _ -> k ≠ _ -> k ≠ _ -> ?s !! k = _
          |- ?s !! ?key = _ =>
            rewrite (H key) by discriminate
        end; assumption. }
  split; [exact Hsel |].
  assert (T4 : s1 !! "room_type_input" = ss !! "room_type_input")
    by (rewrite S1, S0; done).
  assert (T5 : s4 !! "min_nights_input" = ss !! "min_nights_input")
    by (rewrite S4, S1, S0; done).
  assert (T6 : s5 !! "num_reviews_input" = ss !! "num_reviews_input")
    by (rewrite S5, S4, S1, S0; done).
  assert (T7 : s6 !! "reviews_per_month_input" = ss !! "reviews_per_month_input")
    by (rewrite S6, S5, S4, S1, S0; done).
  assert (T8 : s7 !! "host_listings_count_input" = ss !! "host_listings_count_input")
    by (rewrite S7, S6, S5, S4, S1, S0; done).
  assert (T9 : s8 !! "availability_input" = ss !! "availability_input")
    by (rewrite S8, S7, S6, S5, S4, S1, S0; done).
  assert (T10 : s9 !! "reviews_ltm_input" = ss !! "reviews_ltm_input")
    by (rewrite S9, S8, S7, S6, S5, S4, S1, S0; done).
  rewrite <- T4, <- T5, <- T6, <- T7, <- T8, <- T9, <- T10.
  repeat split; assumption.
Qed.

Lemma shows_fixed (fs : FormState) (s : gmap string value) :
  shows fs s -> sidebar s = (Ok fs, s).
Proof.
  intros (H1 & H2 & H3 & H4 & H5 & H6 & H7 & H8 & H9 & H10 & H11).
  assert (Hu : update_coords (city fs) s = (Ok tt, s)).
  { unfold update_coords. rewrite auto_update_keep; eauto. }
  unfold sidebar.
  rewrite (bind_step _ _ s s (city fs)) by (unfold selectbox; by rewrite H1).
  rewrite (bind_step _ _ _ _ _ Hu).
  rewrite (bind_step _ _ _ _ _ (coord_input_value _ _ s H3)).
  rewrite (bind_step _ _ _ _ _ (coord_input_value _ _ s H4)).
  rewrite (bind_step _ _ s s (room_type fs)) by (unfold selectbox; by rewrite H5).
  rewrite (bind_step _ _ s s (minimum_nights fs)) by (unfold int_input; by rewrite H6).
  rewrite (bind_step _ _ s s (number_of_reviews fs)) by (unfold int_input; by rewrite H7).
  rewrite (bind_step _ _ s s (reviews_per_month fs)) by (unfold float_input; by rewrite H8).
  rewrite (bind_step _ _ s s (calculated_host_listings_count fs))
    by (unfold int_input; by rewrite H9).
  rewrite (bind_step _ _ s s (availability_365 fs)) by (unfold int_input; by rewrite H10).
  rewrite (bind_step _ _ s s (number_of_reviews_ltm fs))
    by (unfold int_input; by rewrite H11).
  unfold ret. by destruct fs.
Qed.

(** ** The sidebar on the states the widgets produce *)

Lemma valid_well_typed (ss : gmap string value) : valid ss -> well_typed ss.
Proof.
  unfold valid, well_typed.
  intros (V1 & V2 & V3 & V4 & V5 & V6 & V7 & V8 & V9 & V10).
  repeat split;
    match goal with
    | |- _ (ss !! ?k) => destruct (ss !! k) as [[] |]; done
    end.
Qed.

Lemma valid_selected (ss : gmap string value) :
  valid ss ->
  exists c, selected_city ss = Ok c /\ c ∈ dict_keys city_coords.
Proof.
  intros (V1 & _). unfold selected_city, selectbox.
  destruct (ss !! "city_input") as [[c | x | n] |]; try done.
  - exists c. auto.
  - exists "Paris". split; [reflexivity | apply list_elem_of_here].
Qed.

Lemma city_coords_finite (c : string) (lat lon : float) :
  dict_get city_coords c = Some (lat, lon) ->
  is_finite lat = true /\ is_finite lon = true.
Proof.
  intros H. apply dict_get_elem_of in H.
  assert (Hall : Forall (fun p => is_finite (fst (snd p)) = true
                                  /\ is_finite (snd (snd p)) = true)
                        city_coords)
    by (repeat constructor).
  rewrite Forall_forall in Hall. exact (Hall _ H).
Qed.

(** Where the coordinates at the end of a run come from: the run has left
    both as it found them, or it has written the defaults of the selected
    city. *)
Lemma sidebar_coordinate_origin (c : string) (ss : gmap string value) :
  c ∈ dict_keys city_coords -> selected_city ss = Ok c ->
  (snd (sidebar ss) !! "latitude_input" = ss !! "latitude_input"
   /\ snd (sidebar ss) !! "longitude_input" = ss !! "longitude_input")
  \/ exists lat lon,
       dict_get city_coords c = Some (lat, lon)
       /\ snd (sidebar ss) !! "latitude_input" = Some (VFloat lat)
       /\ snd (sidebar ss) !! "longitude_input" = Some (VFloat lon).
Proof.
  intros Hin Hsel.
  destruct (proj1 (dict_get_keys _ _) Hin) as [[lat lon] Hc].
  assert (Hreset : ss !! "latitude_input" = None \/ ss !! "longitude_input" = None
                     \/ ss !! "last_city" ≠ Some (VStr c) ->
                   exists lat lon,
                     dict_get city_coords c = Some (lat, lon)
                     /\ snd (sidebar ss) !! "latitude_input" = Some (VFloat lat)
                     /\ snd (sidebar ss) !! "longitude_input" = Some (VFloat lon)).
  { intros Hg. exists lat, lon.
    destruct (sidebar_reset c lat lon ss Hc Hsel Hg) as (H1 & H2 & _). auto. }
  destruct (ss !! "latitude_input") as [vx |] eqn:Ex; [| right; auto].
  destruct (ss !! "longitude_input") as [vy |] eqn:Ey; [| right; auto].
  destruct (ss !! "last_city") as [[c' | x | n] |] eqn:El;
    try (right; apply Hreset; right; right; discriminate).
  destruct (decide (c' = c)) as [-> | Hne];
    [| right; apply Hreset; right; right; congruence].
  left.
  assert (Hset : settled c ss) by (unfold settled; rewrite Ex, Ey; eauto).
  rewrite !(sidebar_keep c) by auto. by rewrite Ex, Ey.
Qed.

(** From a state the widgets have produced the sidebar returns, and the
    state it ends in is again one the widgets have produced. *)
Lemma sidebar_valid (ss : gmap string value) :
  valid ss ->
  exists fs,
    sidebar ss = (Ok fs, snd (sidebar ss))
    /\ shows fs (snd (sidebar ss))
    /\ valid (snd (sidebar ss)).
Proof.
  intros Hv.
  destruct (valid_selected ss Hv) as (c & Hsel & Hin).
  destruct (sidebar_total c ss (valid_well_typed ss Hv) Hin Hsel)
    as (fs & E & Hc & _).
  assert (P : sidebar ss = (Ok fs, snd (sidebar ss)))
    by (rewrite <- E; apply surjective_pairing).
  exists fs. split; [exact P |].
  destruct (sidebar_inv fs ss _ P)
    as (Hs & _ & R1 & R2 & R3 & R4 & R5 & R6 & R7).
  split; [exact Hs |].
  destruct Hs as (S1 & _ & S3 & S4 & S5 & S6 & S7 & S8 & S9 & S10 & S11).
  destruct Hv as (V1 & V2 & V3 & V4 & V5 & V6 & V7 & V8 & V9 & V10).
  assert (Hxy : is_finite (latitude fs) = true /\ is_finite (longitude fs) = true).
  { destruct (sidebar_coordinate_origin c ss Hin Hsel)
      as [[Kx Ky] | (lat & lon & Hd & Kx & Ky)].
    - rewrite S3 in Kx. rewrite S4 in Ky.
      rewrite <- Kx in V2. rewrite <- Ky in V3. auto.
    - rewrite S3 in Kx. rewrite S4 in Ky.
      injection Kx as ->. injection Ky as ->.
      by apply (city_coords_finite c). }
  unfold valid.
  rewrite S1, S3, S4, S5, S6, S7, S8, S9, S10, S11. simpl.
  rewrite Hc, R1, R2, R3, R4, R5, R6, R7.
  split; [exact Hin |]. split; [apply Hxy |]. split; [apply Hxy |].
  split.
  { destruct (ss !! "room_type_input") as [[] |]; try done.
    apply list_elem_of_here. }
  split; [destruct (ss !! "min_nights_input") as [[] |]; simpl; try done; lia |].
  split; [destruct (ss !! "num_reviews_input") as [[] |]; simpl; try done; lia |].
  split; [destruct (ss !! "reviews_per_month_input") as [[] |]; done |].
  split;
    [destruct (ss !! "host_listings_count_input") as [[] |]; simpl; try done; lia |].
  split; [destruct (ss !! "availability_input") as [[] |]; simpl; try done; lia |].
  destruct (ss !! "reviews_ltm_input") as [[] |]; simpl; try done; lia.
Qed.

Lemma apply_event_valid (e : event) (ss : gmap string value) :
  valid ss -> enterable e -> valid (apply_event e ss).
Proof.
  unfold valid. intros (V1 & V2 & V3 & V4 & V5 & V6 & V7 & V8 & V9 & V10) He.
  destruct e as [| c | x | x]; simpl in *;
    rewrite ?lookup_insert_eq, ?lookup_insert_ne by discriminate;
    simpl; auto 12.
Qed.

(** From a session state the widgets have produced, the sidebar returns a
    form state and ends in a state of the same kind in which every widget
    key holds the value returned and the remembered city is the selected
    one; run again from that state, with no interaction in between, it
    returns the same form state and writes nothing. *)
Theorem sidebar_rerun_is_identity (ss : gmap string value) :
  valid ss ->
  exists fs,
    fst (sidebar ss) = Ok fs
    /\ shows fs (snd (sidebar ss))
    /\ valid (snd (sidebar ss))
    /\ sidebar (snd (sidebar ss)) = (Ok fs, snd (sidebar ss)).
Proof.
  intros Hv. destruct (sidebar_valid ss Hv) as (fs & P & Hs & Hv').
  exists fs. split; [by rewrite P |].
  split; [exact Hs |]. split; [exact Hv' | by apply shows_fixed].
Qed.

Ltac valid_by_computation :=
  unfold valid; vm_compute;
  repeat split; try discriminate; repeat constructor.

Lemma sidebar_rerun_is_identity_witness :
  let ss : gmap string value :=
    <["min_nights_input" := VInt 30]> (apply_event (SelectCity "Athens") ∅) in
  exists fs, fst (sidebar ss) = Ok fs
             /\ minimum_nights fs = 30
             /\ sidebar (snd (sidebar ss)) = (Ok fs, snd (sidebar ss)).
Proof.
  intros ss.
  destruct (sidebar_rerun_is_identity ss) as (fs & E & _ & _ & Hfix).
  - valid_by_computation.
  - exists fs. split; [exact E |]. split; [| exact Hfix].
    vm_compute in E. injection E as <-. reflexivity.
Defined.

(** On the states the widgets produce, each field of the returned form
    state other than the coordinates is the value stored under its own key,
    or the widget's default when nothing is stored there; so choosing a
    city of the list or typing a coordinate changes none of them. *)
Theorem fields_read_their_own_keys (e : event) (ss : gmap string value) :
  valid ss ->
  enterable e ->
  exists fs fs',
    fst (sidebar ss) = Ok fs
    /\ fst (sidebar (apply_event e ss)) = Ok fs'
    /\ (room_type fs = stored_str (ss !! "room_type_input") "Entire home/apt"
        /\ minimum_nights fs = stored_int (ss !! "min_nights_input") 1
        /\ number_of_reviews fs = stored_int (ss !! "num_reviews_input") 50
        /\ reviews_per_month fs
           = stored_float (ss !! "reviews_per_month_input") 0.0%float
        /\ calculated_host_listings_count fs
           = stored_int (ss !! "host_listings_count_input") 1
        /\ availability_365 fs = stored_int (ss !! "availability_input") 200
        /\ number_of_reviews_ltm fs = stored_int (ss !! "reviews_ltm_input") 0)
    /\ room_type fs' = room_type fs
    /\ minimum_nights fs' = minimum_nights fs
    /\ number_of_reviews fs' = number_of_reviews fs
    /\ reviews_per_month fs' = reviews_per_month fs
    /\ calculated_host_listings_count fs' = calculated_host_listings_count fs
    /\ availability_365 fs' = availability_365 fs
    /\ number_of_reviews_ltm fs' = number_of_reviews_ltm fs.
Proof.
  intros Hv He.
  destruct (sidebar_valid ss Hv) as (fs & P & _ & _).
  destruct (sidebar_valid _ (apply_event_valid e ss Hv He)) as (fs' & P' & _ & _).
  exists fs, fs'.
  split; [by rewrite P |]. split; [by rewrite P' |].
  apply sidebar_inv in P as (_ & _ & R1 & R2 & R3 & R4 & R5 & R6 & R7).
  apply sidebar_inv in P' as (_ & _ & Q1 & Q2 & Q3 & Q4 & Q5 & Q6 & Q7).
  split; [by repeat split |].
  assert (Hk : forall k, k ≠ "city_input" -> k ≠ "latitude_input" ->
                         k ≠ "longitude_input" ->
                         apply_event e ss !! k = ss !! k).
  { intros k H1 H2 H3. destruct e; simpl; by rewrite ?lookup_insert_ne. }
  rewrite Hk in Q1, Q2, Q3, Q4, Q5, Q6, Q7 by discriminate.
  repeat split; congruence.
Qed.

Lemma fields_read_their_own_keys_witness :
  let ss : gmap string value :=
    <["min_nights_input" := VInt 7]> (render (SelectCity "Rome") ∅) in
  exists fs', fst (sidebar (apply_event (SelectCity "Oslo") ss)) = Ok fs'
              /\ minimum_nights fs' = 7 /\ number_of_reviews fs' = 50.
Proof.
  intros ss.
  destruct (fields_read_their_own_keys (SelectCity "Oslo") ss)
    as (fs & fs' & _ & E' & (_ & R2 & R3 & _) & _ & Q2 & Q3 & _).
  - valid_by_computation.
  - simpl. repeat constructor.
  - exists fs'. split; [exact E' |].
    split; [rewrite Q2, R2 | rewrite Q3, R3]; reflexivity.
Defined.

(** ** What the sidebar leaves alone *)

Lemma insert_keeps (key k : string) (v : value) (s : gmap string value) :
  is_Some (s !! k) -> is_Some (<[key := v]> s !! k).
Proof.
  intros H. destruct (decide (key = k)) as [-> | Hne].
  - rewrite lookup_insert_eq. eauto.
  - by rewrite lookup_insert_ne.
Qed.

Lemma bind_keeps {A B : Type} (m : M (gmap string value) A)
  (f : A -> M (gmap string value) B) (k : string) :
  (forall s, is_Some (s !! k) -> is_Some (snd (m s) !! k)) ->
  (forall a s, is_Some (s !! k) -> is_Some (snd (f a s) !! k)) ->
  forall s, is_Some (s !! k) -> is_Some (snd (bind m f s) !! k).
Proof.
  intros Hm Hf s Hs. unfold bind. specialize (Hm s Hs).
  destruct (m s) as [[a | e] s']; simpl in *; auto.
Qed.

Lemma selectbox_keeps (options : list string) (key k : string)
  (s : gmap string value) :
  is_Some (s !! k) -> is_Some (snd (selectbox options key s) !! k).
Proof.
  intros H. unfold selectbox.
  destruct (s !! key) as [[c | x | n] |]; simpl; try done.
  destruct options; simpl; [done | by apply insert_keeps].
Qed.

Lemma int_input_keeps (lo hi d : Z) (key k : string) (s : gmap string value) :
  is_Some (s !! k) -> is_Some (snd (int_input lo hi d key s) !! k).
Proof.
  intros H. unfold int_input.
  destruct (s !! key) as [[c | x | n] |]; simpl; try done. by apply insert_keeps.
Qed.

Lemma float_input_keeps (d : float) (key k : string) (s : gmap string value) :
  is_Some (s !! k) -> is_Some (snd (float_input d key s) !! k).
Proof.
  intros H. unfold float_input.
  destruct (s !! key) as [[c | x | n] |]; simpl; try done. by apply insert_keeps.
Qed.

Lemma update_coords_keeps (c k : string) (s : gmap string value) :
  is_Some (s !! k) -> is_Some (snd (update_coords c s) !! k).
Proof.
  intros H. unfold update_coords, auto_update.
  destruct (_ || _); [| done].
  destruct (dict_getitem city_coords c) as [[lat lon] | e]; simpl; [| done].
  by repeat apply insert_keeps.
Qed.

Lemma coord_input_keeps (key k : string) (s : gmap string value) :
  is_Some (s !! k) -> is_Some (snd (coord_input key s) !! k).
Proof. by rewrite coord_input_state. Qed.

(** A run of the sidebar, whether it returns or raises, writes to no key
    other than those of its ten widgets and the remembered city, and
    removes no entry at all. *)
Theorem sidebar_frame (k : string) (ss : gmap string value) :
  (k ∉ widget_keys -> k ≠ "last_city" -> snd (sidebar ss) !! k = ss !! k)
  /\ (is_Some (ss !! k) -> is_Some (snd (sidebar ss) !! k)).
Proof.
  split.
  - unfold widget_keys. rewrite !not_elem_of_cons.
    intros (H1 & H2 & H3 & H4 & H5 & H6 & H7 & H8 & H9 & H10 & _) Hlast.
    revert ss. unfold sidebar.
    repeat first
      [ apply ret_lookup
      | progress (intros; rewrite coord_input_state)
      | apply bind_lookup; intros
      | apply selectbox_lookup_ne; congruence
      | apply int_input_lookup_ne; congruence
      | apply float_input_lookup_ne; congruence
      | apply update_coords_lookup_ne; congruence
      | reflexivity ].
  - revert ss. unfold sidebar.
    repeat first
      [ apply coord_input_keeps
      | apply selectbox_keeps
      | apply int_input_keeps
      | apply float_input_keeps
      | apply update_coords_keeps
      | apply bind_keeps; intros ?
      | intros; assumption ].
Qed.

(** ** The direct reads of the session state *)

Lemma bind_Err_inv {S A B : Type} (m : M S A) (f : A -> M S B) (s : S) (e : exn) :
  fst (bind m f s) = Err e ->
  fst (m s) = Err e \/ exists a s1, m s = (Ok a, s1) /\ fst (f a s1) = Err e.
Proof.
  unfold bind. destruct (m s) as [[a | e0] s1]; simpl.
  - intros H. right. exists a, s1. auto.
  - intros [= ->]. by left.
Qed.

Lemma selectbox_no_KeyError (options : list string) (key k : string)
  (s : gmap string value) :
  fst (selectbox options key s) ≠ Err (KeyError k).
Proof.
  unfold selectbox. destruct (s !! key) as [[] |]; simpl; try discriminate.
  destruct options; discriminate.
Qed.

Lemma int_input_no_KeyError (lo hi d : Z) (key k : string) (s : gmap string value) :
  fst (int_input lo hi d key s) ≠ Err (KeyError k).
Proof. unfold int_input. destruct (s !! key) as [[] |]; discriminate. Qed.

Lemma float_input_no_KeyError (d : float) (key k : string) (s : gmap string value) :
  fst (float_input d key s) ≠ Err (KeyError k).
Proof. unfold float_input. destruct (s !! key) as [[] |]; discriminate. Qed.

(** Lines 61 and 68 index the session state directly; after lines 49-57
    the key is there. *)
Lemma coord_input_no_KeyError (key k : string) (s : gmap string value) :
  is_Some (s !! key) -> fst (coord_input key s) ≠ Err (KeyError k).
Proof.
  intros [v Hv]. unfold coord_input, bind, session_float, float_input.
  rewrite Hv. destruct v; simpl; try discriminate. rewrite Hv. discriminate.
Qed.

Lemma update_coords_Err (c : string) (e : exn) (s : gmap string value) :
  fst (update_coords c s) = Err e ->
  e = KeyError c
  /\ dict_get city_coords c = None
  /\ (s !! "latitude_input" = None \/ s !! "longitude_input" = None
      \/ s !! "last_city" ≠ Some (VStr c)).
Proof.
  unfold update_coords, auto_update, dict_getitem.
  destruct (not_in "latitude_input" s || not_in "longitude_input" s
            || get_ne_str s "last_city" c) eqn:Hg; [| discriminate].
  apply guard_true in Hg.
  destruct (dict_get city_coords c) as [[lat lon] |]; simpl; [discriminate |].
  intros [= <-]. auto.
Qed.

Ltac no_key_error H :=
  first
    [ exfalso; exact (selectbox_no_KeyError _ _ _ _ H)
    | exfalso; exact (int_input_no_KeyError _ _ _ _ _ _ H)
    | exfalso; exact (float_input_no_KeyError _ _ _ _ H) ].

(** With a city of the table selected, which is what the selectbox of
    line 42 returns, the sidebar raises no [KeyError]: line 51 finds the
    city in [city_coords], and the direct reads
    [st.session_state["latitude_input"]] and
    [st.session_state["longitude_input"]] of lines 61 and 68 find their
    keys, because lines 49-57 write both whenever one is missing.  Whatever
    the session state held at the start, the run ends with both coordinates
    present and the selected city remembered. *)
Theorem sidebar_no_KeyError (c : string) (ss : gmap string value) :
  selected_city ss = Ok c ->
  c ∈ dict_keys city_coords ->
  (forall k, fst (sidebar ss) ≠ Err (KeyError k))
  /\ settled c (snd (sidebar ss))
  /\ (forall s, exists s',
        auto_update c s = Ok s'
        /\ settled c s'
        /\ (forall k, fst (session_float "latitude_input" s') ≠ Err (KeyError k))
        /\ (forall k, fst (session_float "longitude_input" s') ≠ Err (KeyError k))).
Proof.
  intros Hsel Hin.
  assert (Hc : dict_get city_coords c ≠ None).
  { destruct (proj1 (dict_get_keys _ _) Hin) as [p Hp]. congruence. }
  split; [| split].
  - intros k H. unfold sidebar in H.
    apply bind_Err_inv in H as [H | (c0 & s0 & E0 & H)]; [no_key_error H |].
    assert (c0 = c) as ->
      by (unfold selected_city in Hsel; rewrite E0 in Hsel; by injection Hsel).
    apply bind_Err_inv in H as [H | ([] & s1 & E1 & H)].
    + apply update_coords_Err in H as (_ & Hnone & _). by apply Hc.
    + apply update_coords_returns in E1 as [(_ & Hlat & Hlon) _].
      apply bind_Err_inv in H as [H | (x & s2 & E2 & H)];
        [exact (coord_input_no_KeyError _ _ _ Hlat H) |].
      apply coord_input_returns in E2 as [-> _].
      apply bind_Err_inv in H as [H | (y & s3 & E3 & H)];
        [exact (coord_input_no_KeyError _ _ _ Hlon H) |].
      do 7 (apply bind_Err_inv in H as [H | (? & ? & _ & H)]; [no_key_error H |]).
      discriminate.
  - by apply sidebar_settles.
  - intros s.
    assert (Hset := update_coords_settles c s Hin).
    assert (Herr := update_coords_Err c (KeyError c) s).
    unfold update_coords in Hset, Herr.
    destruct (auto_update c s) as [s' | e] eqn:E; simpl in Hset.
    + exists s'. split; [reflexivity |]. split; [exact Hset |].
      destruct Hset as (_ & [vx Hx] & [vy Hy]).
      unfold session_float. rewrite Hx, Hy.
      split; intros k; [destruct vx | destruct vy]; discriminate.
    + exfalso. unfold auto_update, dict_getitem in E.
      destruct (_ || _); [| discriminate].
      destruct (dict_get city_coords c) as [[lat lon] |]; [discriminate |].
      by apply Hc.
Qed.

Lemma sidebar_no_KeyError_witness :
  fst (sidebar ∅) ≠ Err (KeyError "latitude_input")
  /\ settled "Paris" (snd (sidebar ∅)).
Proof.
  destruct (sidebar_no_KeyError "Paris" ∅) as (H1 & H2 & _).
  - reflexivity.
  - apply list_elem_of_here.
  - split; [apply H1 | exact H2].
Defined.

(** ** The feature row: when it is built and how it fails *)

Lemma dict_get_None {V : Type} (d : list (string * V)) (k : string) :
  dict_get d k = None <-> k ∉ dict_keys d.
Proof.
  rewrite dict_get_keys. destruct (dict_get d k) as [v0 |]; split.
  - discriminate.
  - intros H. exfalso. apply H. eauto.
  - intros _ [w Hw]. discriminate.
  - reflexivity.
Qed.

(** The feature row is built exactly for the three room-type labels and
    the cities of the table.  Otherwise building it raises [KeyError]: on
    the room type when that is unknown (line 118 comes first), on the city
    when only the city is unknown (line 125). *)
Theorem input_df_outcome (fs : FormState) :
  ((exists df, input_df fs = Ok df)
   <-> room_type fs ∈ room_types /\ city fs ∈ dict_keys city_coords)
  /\ (room_type fs ∉ room_types ->
      input_df fs = Err (KeyError (room_type fs)))
  /\ (room_type fs ∈ room_types -> city fs ∉ dict_keys city_coords ->
      input_df fs = Err (KeyError (city fs))).
Proof.
  assert (Kr : dict_keys room_type_map = room_types) by reflexivity.
  assert (Kc : dict_keys city_map = dict_keys city_coords) by reflexivity.
  assert (Hr : room_type fs ∉ room_types ->
               input_df fs = Err (KeyError (room_type fs))).
  { intros H. rewrite <- Kr in H. apply dict_get_None in H.
    unfold input_df, input_dict, dict_getitem, rbind. by rewrite H. }
  assert (Hc : room_type fs ∈ room_types -> city fs ∉ dict_keys city_coords ->
               input_df fs = Err (KeyError (city fs))).
  { intros H1 H2. rewrite <- Kr in H1. apply dict_get_keys in H1 as [r H1].
    rewrite <- Kc in H2. apply dict_get_None in H2.
    unfold input_df, input_dict, dict_getitem, rbind. rewrite H1. by rewrite H2. }
  split; [| by split].
  split.
  - intros [df E].
    destruct (decide (room_type fs ∈ room_types)) as [H1 | H1];
      [| rewrite (Hr H1) in E; discriminate].
    destruct (decide (city fs ∈ dict_keys city_coords)) as [H2 | H2];
      [done | rewrite (Hc H1 H2) in E; discriminate].
  - intros [H1 H2].
    rewrite <- Kr in H1. apply dict_get_keys in H1 as [r H1].
    rewrite <- Kc in H2. apply dict_get_keys in H2 as [c H2].
    unfold input_df, input_dict, dict_getitem, rbind. rewrite H1, H2. eauto.
Qed.

(** ** The positions shown, for an array of any length *)

Lemma top_idx_weights {W : Type} (argsort : list W -> list nat) (v : list W) :
  argsort v ≡ₚ seq 0 (length v) ->
  exists weights,
    fancy_index v (top_idx argsort v) = Ok weights
    /\ Forall2 (fun i w => v !! i = Some w) (top_idx argsort v) weights.
Proof.
  intros Hp. apply fancy_index_Ok.
  eapply Forall_impl; [by apply top_idx_below |].
  simpl. intros i Hi. by apply lookup_lt_is_Some.
Qed.

(** However long the array, and in whatever order [np.argsort] lists its
    positions, the positions picked by line 149 are [min 5 n] different
    positions of the array; an array of at most five weights has all its
    positions shown.  Indexing the weights by them (line 152) therefore
    never fails. *)
Theorem top_idx_positions {W : Type} (argsort : list W -> list nat)
  (v : list W) :
  argsort v ≡ₚ seq 0 (length v) ->
  length (top_idx argsort v) = min 5 (length v)
  /\ NoDup (top_idx argsort v)
  /\ Forall (fun i => (i < length v)%nat) (top_idx argsort v)
  /\ ((length v <= 5)%nat -> top_idx argsort v ≡ₚ seq 0 (length v))
  /\ exists weights,
       fancy_index v (top_idx argsort v) = Ok weights
       /\ Forall2 (fun i w => v !! i = Some w) (top_idx argsort v) weights.
Proof.
  intros Hp.
  split; [by apply top_idx_perm_length |].
  split; [by apply top_idx_perm_NoDup |].
  split; [by apply top_idx_below |].
  split.
  - intros Hle. unfold top_idx.
    rewrite take_ge by (rewrite length_rev, Hp, length_seq; lia).
    by rewrite rev_Permutation.
  - by apply top_idx_weights.
Qed.

Lemma top_idx_positions_witness :
  let v := [3; 7; 0]%Z in
  let argsort : list Z -> list nat := fun _ => [2; 0; 1]%nat in
  top_idx argsort v = [1; 0; 2]%nat
  /\ length (top_idx argsort v) = min 5 (length v)
  /\ fancy_index v (top_idx argsort v) = Ok [7; 3; 0]%Z.
Proof.
  intros v argsort.
  destruct (top_idx_positions argsort v) as (Hl & _ & _ & _ & w & Hw & _).
  - apply (bool_decide_unpack _). vm_compute. exact I.
  - split; [reflexivity |]. split; [exact Hl | reflexivity].
Defined.

Lemma fancy_index_Err {A : Type} (a : list A) (idx : list nat) :
  Exists (fun i => (length a <= i)%nat) idx ->
  fancy_index a idx = Err IndexError.
Proof.
  induction 1 as [i idx Hi | i idx _ IH]; simpl.
  - by rewrite (lookup_ge_None_2 a i Hi).
  - destruct (a !! i); [| reflexivity]. by rewrite IH.
Qed.

(** The chart of lines 147-153, by cases: an exception of
    [feature_importances_] is passed on; with weights for no more features
    than there are columns the chart has [min 5 n] rows, each a column
    label with its own weight, in whatever order [np.argsort] lists the
    positions; and when a picked position lies beyond the columns (a model
    with more features than the frame has columns), [feat_names[top_idx]]
    raises [IndexError]. *)
Theorem fi_df_outcome {Artifact W : Type}
  (feature_importances_ : Artifact -> result (list W))
  (argsort : list W -> list nat) (model : Artifact) (df : DataFrame) :
  (forall e, feature_importances_ model = Err e ->
             fi_df feature_importances_ argsort model df = Err e)
  /\ (forall v, feature_importances_ model = Ok v ->
        argsort v ≡ₚ seq 0 (length v) ->
        (length v <= length (columns df))%nat ->
        exists chart,
          fi_df feature_importances_ argsort model df = Ok chart
          /\ length chart = min 5 (length v)
          /\ Forall2 (fun i row => columns df !! i = Some (fst row)
                                   /\ v !! i = Some (snd row))
                     (top_idx argsort v) chart)
  /\ (forall v, feature_importances_ model = Ok v ->
        Exists (fun i => (length (columns df) <= i)%nat) (top_idx argsort v) ->
        fi_df feature_importances_ argsort model df = Err IndexError).
Proof.
  split; [| split].
  - intros e He. unfold fi_df. by rewrite He.
  - intros v Hv Hp Hlen.
    assert (Hn := top_idx_perm_length argsort v Hp).
    assert (Hidx := top_idx_below argsort v Hp).
    destruct (top_idx_weights argsort v Hp) as (weights & Ew & Hw).
    destruct (fancy_index_Ok (columns df) (top_idx argsort v)) as (names & En & Hn').
    { eapply Forall_impl; [exact Hidx |]. simpl. intros i Hi.
      apply lookup_lt_is_Some. lia. }
    exists (combine names weights).
    assert (HF := combine_Forall2 (fun i x => columns df !! i = Some x)
                    (fun i w => v !! i = Some w) _ _ _ Hn' Hw).
    split; [| split; [| exact HF]].
    + unfold fi_df. rewrite Hv. simpl. rewrite En. simpl. by rewrite Ew.
    + rewrite <- Hn. symmetry. exact (Forall2_length _ _ _ HF).
  - intros v Hv Hex. unfold fi_df. rewrite Hv. simpl.
    by rewrite (fancy_index_Err _ _ Hex).
Qed.

(** ** The run as a whole: session state, model input, map *)

Lemma DataFrame_of_array_Ok (a : list (list float)) (cols : list string)
  (df : DataFrame) :
  DataFrame_of_array a cols = Ok df ->
  columns df = cols
  /\ rows df = map (map VFloat) a
  /\ Forall (fun r => length r = length cols) (rows df).
Proof.
  unfold DataFrame_of_array.
  destruct (forallb _ a) eqn:E; [| discriminate].
  intros [= <-]. simpl. split; [done |]. split; [done |].
  rewrite forallb_forall in E. apply Forall_forall. intros r Hr.
  apply list_elem_of_In, in_map_iff in Hr as (r0 & <- & Hr0).
  rewrite length_map. apply Nat.eqb_eq, E, Hr0.
Qed.

Section RunFacts.
Context {Artifact W : Type}.
Variable joblib_load : string -> result Artifact.
Variable transform : Artifact -> DataFrame -> result (list (list float)).
Variable predict : Artifact -> DataFrame -> result (list float).
Variable feature_importances_ : Artifact -> result (list W).
Variable argsort : list W -> list nat.

Abbreviation this_run := (run joblib_load transform predict feature_importances_ argsort).

Ltac shown :=
  simpl; rewrite ?elem_of_cons, ?elem_of_nil;
  intuition (try discriminate; try congruence).

Lemma folium_Map_Ok (lat lon : float) (m : float * float) :
  folium_Map lat lon = Ok m -> m = (lat, lon).
Proof.
  unfold folium_Map. destruct (is_nan lat || is_nan lon); [discriminate |].
  by intros [= <-].
Qed.

(** Whatever a run does after the sidebar, it leaves the entries of the
    form (the ten widget keys and the remembered city) as the sidebar left
    them. *)
Lemma run_form_keys (checked : bool) (model scaler : Artifact)
  (s : gmap string value) :
  load_model joblib_load = Ok (model, scaler) ->
  session_state (snd (this_run checked s)) = snd (sidebar s).
Proof.
  intros Hl. rewrite run_cases, Hl.
  destruct (sidebar s) as [[fs | e0] s']; [| reflexivity].
  destruct (input_df fs) as [df | e0]; [| reflexivity].
  destruct (predicted_price transform predict model scaler df)
    as [price | e0]; [| reflexivity].
  cbv zeta.
  destruct checked;
    [destruct (fi_df feature_importances_ argsort model df); [| reflexivity] |];
    by destruct (folium_Map (latitude fs) (longitude fs)).
Qed.

(** A run whose artifacts do not load raises the loading error, shows
    nothing and leaves every entry of the form (the ten widget keys and
    the remembered city) as it found it; a run whose artifacts load leaves
    each of these entries as the sidebar leaves it, whatever becomes of the
    feature row, the prediction, the chart and the map.  So after the run
    that an interaction triggers these entries are as [render] gives them:
    a failing prediction does not undo a city change. *)
Theorem run_session_state (checked : bool) (e : event) (k : string)
  (ss : gmap string value) :
  k ∈ widget_keys \/ k = "last_city" ->
  (forall err, load_model joblib_load = Err err ->
     fst (this_run checked ss) = Err err
     /\ page (snd (this_run checked ss)) = []
     /\ session_state (snd (this_run checked ss)) !! k = ss !! k)
  /\ (forall loaded, load_model joblib_load = Ok loaded ->
        session_state (snd (this_run checked ss)) !! k = snd (sidebar ss) !! k
        /\ session_state (snd (this_run checked (apply_event e ss))) !! k
           = render e ss !! k).
Proof.
  intros _. split.
  - intros err Hl. rewrite run_cases, Hl. auto.
  - intros [model scaler] Hl. unfold render.
    by rewrite !(run_form_keys checked model scaler _ Hl).
Qed.

(** The map is drawn only by a run that completes, it is the last thing
    on the page, and its centre and marker are the latitude and longitude
    the session state holds at the end of the run. *)
Theorem map_at_session_coordinates (checked : bool) (x y : float)
  (ss : gmap string value) :
  FoliumMap x y ∈ page (snd (this_run checked ss)) ->
  (exists r, fst (this_run checked ss) = Ok r)
  /\ last (page (snd (this_run checked ss))) = Some (FoliumMap x y)
  /\ session_state (snd (this_run checked ss)) !! "latitude_input"
     = Some (VFloat x)
  /\ session_state (snd (this_run checked ss)) !! "longitude_input"
     = Some (VFloat y).
Proof.
  rewrite run_cases.
  destruct (load_model joblib_load) as [[model scaler] | e0]; [| shown].
  destruct (sidebar ss) as [[fs | e0] ss'] eqn:Es; [| shown].
  apply sidebar_inv in Es as ((_ & _ & Hlat & Hlon & _) & _).
  destruct (input_df fs) as [df | e0]; [| shown].
  destruct (predicted_price transform predict model scaler df)
    as [price | e0]; [| shown].
  cbv zeta.
  destruct (folium_Map (latitude fs) (longitude fs)) as [m | e1] eqn:Em;
    [apply folium_Map_Ok in Em as -> |];
    (destruct checked;
     [destruct (fi_df feature_importances_ argsort model df) as [chart | e0] |]);
    simpl; rewrite ?elem_of_cons, ?elem_of_nil; intros Hin;
    repeat (destruct Hin as [Hin | Hin]; try discriminate);
    try contradiction;
    injection Hin as -> ->; eauto.
Qed.

(** Whenever a price is predicted, the frame handed to the model carries
    the script's own ten column labels, in the script's order, over rows
    of ten floats that are the scaler's output cell for cell, and the price
    is the first entry of the model's answer. *)
Theorem model_sees_script_labels (model scaler : Artifact) (df : DataFrame)
  (price : float) :
  predicted_price transform predict model scaler df = Ok price ->
  exists X_scaled X_scaled_df prediction,
    transform scaler df = Ok X_scaled
    /\ predict model X_scaled_df = Ok prediction
    /\ prediction !! 0%nat = Some price
    /\ columns X_scaled_df = columns_order
    /\ rows X_scaled_df = map (map VFloat) X_scaled
    /\ Forall (fun r => length r = 10%nat) (rows X_scaled_df).
Proof.
  intros H. apply predicted_price_Ok in H as (X & Xdf & pr & Ht & Hd & Hp & H0).
  apply DataFrame_of_array_Ok in Hd as (Hc & Hr & Hw).
  exists X, Xdf, pr. auto 10.
Qed.
End RunFacts.

Lemma run_session_state_witness :
  let fitted := {| feature_names_in_ := columns_order |} in
  let r := run (fun _ : string => Ok fitted) width_only_transform
               (fun (_ : estimator) (_ : DataFrame) => Err ValueError)
               (fun _ : estimator => Ok ([] : list Z)) (fun _ => [])
               false (apply_event (SelectCity "Rome") ∅) in
  fst r = Err ValueError
  /\ session_state (snd r) !! "last_city" = Some (VStr "Rome")
  /\ session_state (snd r) !! "latitude_input" = Some (VFloat 41.9028).
Proof.
  intros fitted r. split; [reflexivity |].
  split.
  - destruct (run_session_state (fun _ : string => Ok fitted)
                width_only_transform
                (fun (_ : estimator) (_ : DataFrame) => Err ValueError)
                (fun _ : estimator => Ok ([] : list Z)) (fun _ => [])
                false (SelectCity "Rome") "last_city" ∅) as [_ H].
    + by right.
    + destruct (H (fitted, fitted)) as [_ H2]; [reflexivity |].
      etransitivity; [exact H2 |]. vm_compute. reflexivity.
  - vm_compute. reflexivity.
Defined.

Lemma map_at_session_coordinates_witness :
  let fitted := {| feature_names_in_ := columns_order |} in
  let ss := apply_event (EditLatitude 41.0) (render (SelectCity "Rome") ∅) in
  let r := run (fun _ : string => Ok fitted) width_only_transform
               width_only_predict (fun _ : estimator => Ok ([] : list Z))
               (fun _ => []) false ss in
  last (page (snd r)) = Some (FoliumMap 41.0 12.4964)
  /\ session_state (snd r) !! "latitude_input" = Some (VFloat 41.0).
Proof.
  intros fitted ss r.
  destruct (map_at_session_coordinates (fun _ : string => Ok fitted)
              width_only_transform width_only_predict
              (fun _ : estimator => Ok ([] : list Z)) (fun _ => []) false
              41.0 12.4964 ss) as (_ & Hlast & Hlat & _).
  - apply list_elem_of_lookup. exists 6%nat. vm_compute. reflexivity.
  - split; [exact Hlast | exact Hlat].
Defined.

Lemma model_sees_script_labels_witness :
  let fitted := {| feature_names_in_ := columns_order |} in
  let df := DataFrame_of_records
              [ [ ("latitude", VFloat 48.8566); ("longitude", VFloat 2.3522);
                  ("room_type", VInt 0); ("minimum_nights", VInt 1);
                  ("number_of_reviews", VInt 50);
                  ("reviews_per_month", VFloat 0.0);
                  ("calculated_host_listings_count", VInt 1);
                  ("availability_365", VInt 200);
                  ("number_of_reviews_ltm", VInt 0); ("city", VInt 0) ] ]
              columns_order in
  exists X_scaled_df prediction,
    width_only_predict fitted X_scaled_df = Ok prediction
    /\ columns X_scaled_df = columns_order.
Proof.
  intros fitted df.
  destruct (model_sees_script_labels width_only_transform width_only_predict
              fitted fitted df 48.8566)
    as (X & Xdf & pr & _ & Hp & _ & Hc & _).
  - vm_compute. reflexivity.
  - exists Xdf, pr. auto.
Defined.

(** ** The chart and the checkbox *)

Lemma fancy_index_length {A : Type} (a : list A) (idx : list nat) (r : list A) :
  fancy_index a idx = Ok r -> length r = length idx.
Proof.
  revert r. induction idx as [| i idx IH]; intros r; simpl.
  - by intros [= <-].
  - destruct (a !! i) as [x |]; [| discriminate].
    destruct (fancy_index a idx) as [r0 |]; simpl; [| discriminate].
    intros [= <-]. simpl. f_equal. by apply IH.
Qed.

Lemma fi_df_at_most_five {Artifact W : Type}
  (feature_importances_ : Artifact -> result (list W))
  (argsort : list W -> list nat) (model : Artifact) (df : DataFrame)
  (chart : list (string * W)) :
  fi_df feature_importances_ argsort model df = Ok chart ->
  (length chart <= 5)%nat.
Proof.
  unfold fi_df, rbind.
  destruct (feature_importances_ model) as [v |]; [| discriminate].
  destruct (fancy_index (columns df) (top_idx argsort v)) as [names |] eqn:En;
    [| discriminate].
  destruct (fancy_index v (top_idx argsort v)) as [weights |] eqn:Ew;
    [| discriminate].
  intros [= <-]. rewrite length_combine.
  apply fancy_index_length in En. rewrite En. unfold top_idx.
  rewrite length_take. lia.
Qed.

Section ChartFacts.
Context {Artifact W : Type}.
Variable joblib_load : string -> result Artifact.
Variable transform : Artifact -> DataFrame -> result (list (list float)).
Variable predict : Artifact -> DataFrame -> result (list float).
Variable feature_importances_ : Artifact -> result (list W).
Variable argsort : list W -> list nat.

(** A chart is on the page only when the checkbox is ticked: it is then
    what lines 147-153 compute from the loaded model and the feature row of
    this run, it has at most five rows, and on the page it follows the
    ticked checkbox, which follows the price: the price has been shown
    before the importances are even read. *)
Theorem chart_only_when_ticked (checked : bool) (chart : list (string * W))
  (ss : gmap string value) :
  BarChart chart
    ∈ page (snd (run joblib_load transform predict feature_importances_ argsort
                     checked ss)) ->
  checked = true
  /\ (length chart <= 5)%nat
  /\ exists model scaler fs df price,
       load_model joblib_load = Ok (model, scaler)
       /\ fst (sidebar ss) = Ok fs
       /\ input_df fs = Ok df
       /\ fi_df feature_importances_ argsort model df = Ok chart
       /\ page (snd (run joblib_load transform predict feature_importances_
                         argsort checked ss)) !! 3%nat = Some (WritePrice price)
       /\ page (snd (run joblib_load transform predict feature_importances_
                         argsort checked ss)) !! 4%nat
          = Some (Checkbox "Show top 5 feature importances" true)
       /\ page (snd (run joblib_load transform predict feature_importances_
                         argsort checked ss)) !! 5%nat = Some (BarChart chart).
Proof.
  rewrite run_cases.
  destruct (load_model joblib_load) as [[model scaler] | e0];
    [| simpl; rewrite elem_of_nil; tauto].
  destruct (sidebar ss) as [[fs | e0] ss'];
    [| simpl; rewrite !elem_of_cons, elem_of_nil; intuition discriminate].
  destruct (input_df fs) as [df | e0] eqn:Edf;
    [| simpl; rewrite !elem_of_cons, elem_of_nil; intuition discriminate].
  destruct (predicted_price transform predict model scaler df) as [price | e0];
    [| simpl; rewrite !elem_of_cons, elem_of_nil; intuition discriminate].
  cbv zeta.
  destruct checked;
    [| destruct (folium_Map (latitude fs) (longitude fs));
       simpl; rewrite !elem_of_cons, elem_of_nil; intuition discriminate].
  destruct (fi_df feature_importances_ argsort model df) as [chart0 | e0] eqn:Ec;
    [| simpl; rewrite !elem_of_cons, elem_of_nil; intuition discriminate].
  destruct (folium_Map (latitude fs) (longitude fs)) as [m | e1];
    simpl; rewrite !elem_of_cons, elem_of_nil; intros Hin;
    (assert (chart0 = chart) as ->
       by (repeat (destruct Hin as [Hin | Hin]; try discriminate);
           [by injection Hin | contradiction]));
    (split; [reflexivity |]);
    (split; [exact (fi_df_at_most_five _ _ _ _ _ Ec) |]);
    exists model, scaler, fs, df, price; auto 10.
Qed.
End ChartFacts.

Lemma chart_only_when_ticked_witness :
  let fitted := {| feature_names_in_ := columns_order |} in
  let r := run (fun _ : string => Ok fitted) width_only_transform
               width_only_predict
               (fun _ : estimator => Ok [3; 7; 0; 8; 1; 5; 6; 2; 9; 4]%Z)
               (fun _ => [2; 4; 7; 0; 9; 5; 6; 1; 3; 8]%nat) true ∅ in
  page (snd r) !! 5%nat
    = Some (BarChart [ ("number_of_reviews_ltm", 9%Z); ("minimum_nights", 8%Z);
                       ("longitude", 7%Z);
                       ("calculated_host_listings_count", 6%Z);
                       ("reviews_per_month", 5%Z) ]).
Proof.
  intros fitted r.
  destruct (chart_only_when_ticked (fun _ : string => Ok fitted)
              width_only_transform width_only_predict
              (fun _ : estimator => Ok [3; 7; 0; 8; 1; 5; 6; 2; 9; 4]%Z)
              (fun _ => [2; 4; 7; 0; 9; 5; 6; 1; 3; 8]%nat) true
              [ ("number_of_reviews_ltm", 9%Z); ("minimum_nights", 8%Z);
                ("longitude", 7%Z); ("calculated_host_listings_count", 6%Z);
                ("reviews_per_month", 5%Z) ] ∅)
    as (_ & _ & model & scaler & fs & df & price & _ & _ & _ & _ & _ & _ & H5).
  - apply list_elem_of_lookup. exists 5%nat. vm_compute. reflexivity.
  - exact H5.
Defined.
